(** * Topcar stock: the transaction ledger and the job-usage report of [app.py]

    A shallow embedding of the Flask handlers [add_item], [checkout],
    [receive], [reverse_transaction], [_job_usage] and [job_usage] over an
    explicit model of the two SQLite tables they read and write.

    Modelling decisions, all taken from the source:
    - the database is a record holding the rows of [stock] and
      [transactions] in insertion order, together with the AUTOINCREMENT
      counters of both tables;
    - Python [int] is [Z]; SQLite's 64-bit range is not modelled;
    - the REAL column [unit_price] and Python's [float] arithmetic are taken
      through the interface [Float]: the handlers only multiply an integer by
      a price, add prices, round to two decimals, and compare with zero, so
      every theorem holds for any implementation of these operations;
    - text is [string], read as a sequence of code points below 256;
      [strip] removes the white space [str.strip] removes among them, and
      names compare as under SQLite's BINARY collation;
    - a request body is taken after JSON decoding, with every field either
      absent or of the type the handler converts it to;
    - a handler is a computation in a small state-and-error monad [DB]: an
      early [return jsonify(error), code] is [fail], an [UPDATE] or [INSERT]
      is a write on the store (no handler fails after a write, so commit
      and rollback are not modelled);
    - [created_at] (a clock reading) is left out of the rows. *)

From Stdlib Require Import ZArith List Bool String Ascii Lia.
From Stdlib Require Import Sorting.Sorted Sorting.Permutation.
From Stdlib Require OrderedTypeEx.
Import ListNotations.
Local Open Scope Z_scope.

Set Implicit Arguments.

(* ------------------------------------------------------------------ *)
(** ** Prices *)

(** What the handlers use of Python floats and of SQLite REAL values.
    [F] stands for the values a [REAL NOT NULL] column holds, taken as
    SQLite compares them: the two zeros are one value, and NaN, which
    SQLite stores as NULL, is not among them.  [F_eq_dec] is then the
    comparison of [GROUP BY] and of the truth value of [x or 0]; [fzero] is
    [float(0)]. *)
Class Float (F : Type) : Type := {
  F_eq_dec : forall x y : F, {x = y} + {x <> y};
  fzero : F;
  fneg : F -> bool;            (* x < 0 *)
  fmul_int : Z -> F -> F;      (* n * x for an int n *)
  fadd : F -> F -> F;          (* x + y *)
  round2 : F -> F              (* round(x, 2) *)
}.

(** An exact decimal implementation, in units of 1/10000, used to run the
    handlers on concrete histories: [round2] rounds half to even on the
    second decimal.  It is not Python's [round] on binary floats (which
    takes 2.675 to 2.67, the nearest double lying below the tie); the
    histories below use prices in whole rands, where the two agree. *)
Definition dec_round2 (x : Z) : Z :=
  let q := x / 100 in
  let r := x mod 100 in
  if r <? 50 then 100 * q
  else if 50 <? r then 100 * (q + 1)
  else if Z.even q then 100 * q else 100 * (q + 1).

#[export] Instance DecFloat : Float Z := {
  F_eq_dec := Z.eq_dec;
  fzero := 0;
  fneg := fun x => x <? 0;
  fmul_int := Z.mul;
  fadd := Z.add;
  round2 := dec_round2
}.

(** [rands n] is the price of [n] rands in [DecFloat]. *)
Definition rands (n : Z) : Z := 10000 * n.

(* ------------------------------------------------------------------ *)
(** ** Text *)

(** The characters below 256 for which [str.isspace] holds: TAB to CR, FS
    to US, the space, NEL and the no-break space. *)
Definition is_space (c : ascii) : bool :=
  let n := N_of_ascii c in
  ((9 <=? n)%N && (n <=? 13)%N) || ((28 <=? n)%N && (n <=? 32)%N)
  || (n =? 133)%N || (n =? 160)%N.

Fixpoint lstrip (s : string) : string :=
  match s with
  | EmptyString => EmptyString
  | String c s' => if is_space c then lstrip s' else s
  end.

Fixpoint rstrip (s : string) : string :=
  match s with
  | EmptyString => EmptyString
  | String c s' =>
      match rstrip s' with
      | EmptyString => if is_space c then EmptyString else String c EmptyString
      | r => String c r
      end
  end.

(** [str.strip()] *)
Definition strip (s : string) : string := lstrip (rstrip s).

(** Python's truth value of a [str]. *)
Definition nonempty (s : string) : bool :=
  match s with EmptyString => false | String _ _ => true end.

(** [x or ""] for an optional JSON string. *)
Definition str_or_empty (x : option string) : string :=
  match x with Some s => s | None => EmptyString end.

(** [data.get(key, 0)] for an optional JSON integer. *)
Definition get0 (x : option Z) : Z :=
  match x with Some n => n | None => 0 end.

(* ------------------------------------------------------------------ *)
(** ** The tables *)

(** The values the code writes into [transactions.action]. *)
Module Action.
Inductive t : Type := checkout | receive | reverse.

Definition eqb (a b : t) : bool :=
  match a, b with
  | checkout, checkout | receive, receive | reverse, reverse => true
  | _, _ => false
  end.
End Action.

(** A row of [stock]. *)
Module Stock.
Record row (F : Type) : Type := mk {
  id : Z;
  name : string;
  quantity : Z;
  min_level : Z;
  unit_price : F;
  supplier : string;
  reorder_qty : Z
}.
Arguments mk {F}.

(** [UPDATE stock SET quantity=?] on one row. *)
Definition set_quantity {F} (q : Z) (r : row F) : row F :=
  mk (id r) (name r) q (min_level r) (unit_price r) (supplier r)
     (reorder_qty r).
End Stock.

(** A row of [transactions]. *)
Module Tx.
Record row (F : Type) : Type := mk {
  id : Z;
  item_id : Z;
  change_qty : Z;
  job_no : option string;
  action : Action.t;
  unit_price : F;
  reversed_from : option Z;
  is_reversed : Z
}.
Arguments mk {F}.
End Tx.

(** The database: both tables in insertion order and, as AUTOINCREMENT
    keeps in [sqlite_sequence], the largest id each table has handed out. *)
Record store (F : Type) : Type := mkStore {
  stock : list (Stock.row F);
  stock_seq : Z;
  transactions : list (Tx.row F);
  transactions_seq : Z
}.
Arguments mkStore {F}.

(** The database after [setup()] on a fresh file. *)
Definition empty_store {F} : store F := mkStore [] 0 [] 0.

(* ------------------------------------------------------------------ *)
(** ** Responses *)

(** One constructor per error response of the handlers. *)
Inductive error : Type :=
| unauthorized                 (* 401 "unauthorized (missing/incorrect token)" *)
| name_is_required             (* 400 "name is required" *)
| values_cannot_be_negative    (* 400 "values cannot be negative" *)
| item_id_and_quantity_must_be_positive
                               (* 400 "item_id and quantity must be > 0" *)
| job_no_is_required           (* 400 "job_no is required" *)
| item_not_found               (* 404 "item not found" *)
| not_enough_stock             (* 400 "not enough stock" *)
| transaction_id_must_be_positive
                               (* 400 "transaction_id must be > 0" *)
| transaction_not_found        (* 404 "transaction not found" *)
| cannot_reverse_a_reverse     (* 400 "cannot reverse a reverse transaction" *)
| transaction_already_reversed (* 400 "transaction already reversed" *)
| item_no_longer_exists        (* 400 "item for this transaction no longer exists" *)
| reversal_would_make_stock_negative
                               (* 400 "reversal would make stock negative" *)
| no_usage_found.              (* 404 "no usage found for job_no ..." *)

(** The HTTP status that goes with each error. *)
Definition status (e : error) : Z :=
  match e with
  | unauthorized => 401
  | item_not_found | transaction_not_found | no_usage_found => 404
  | _ => 400
  end.

(** The error kinds of the specification. *)
Inductive error_kind : Type :=
| InvalidInput | Unauthorized | NotFound | InsufficientStock | InvalidReversal.

(** How the error responses fall into those kinds. *)
Definition kind (e : error) : error_kind :=
  match e with
  | unauthorized => Unauthorized
  | name_is_required | values_cannot_be_negative
  | item_id_and_quantity_must_be_positive | job_no_is_required
  | transaction_id_must_be_positive => InvalidInput
  | item_not_found | transaction_not_found | no_usage_found => NotFound
  | not_enough_stock => InsufficientStock
  | cannot_reverse_a_reverse | transaction_already_reversed
  | item_no_longer_exists | reversal_would_make_stock_negative =>
      InvalidReversal
  end.

Inductive result (A : Type) : Type :=
| Ok (a : A)
| Err (e : error).
Arguments Ok {A}.
Arguments Err {A}.

(** [fails_with k r]: [r] is an error response of kind [k]. *)
Definition fails_with {A} (k : error_kind) (r : result A) : Prop :=
  exists e, r = Err e /\ kind e = k.

Definition is_ok {A} (r : result A) : bool :=
  match r with Ok _ => true | Err _ => false end.

(* ------------------------------------------------------------------ *)
(** ** The handler monad *)

(** A handler reads and writes the database and either answers or stops at
    its first error response. *)
Definition DB (F A : Type) : Type := store F -> result A * store F.

Definition ret {F A} (a : A) : DB F A := fun s => (Ok a, s).

Definition fail {F A} (e : error) : DB F A := fun s => (Err e, s).

Definition bind {F A B} (m : DB F A) (k : A -> DB F B) : DB F B :=
  fun s =>
    match m s with
    | (Ok a, s') => k a s'
    | (Err e, s') => (Err e, s')
    end.

Notation "x <- m ;; k" := (bind m (fun x => k))
  (at level 61, m at next level, right associativity).
Notation "m ;;; k" := (bind m (fun _ => k))
  (at level 61, right associativity).

(** [if c: return error] *)
Definition reject_if {F} (c : bool) (e : error) : DB F unit :=
  if c then fail e else ret tt.

(** The answers of the handlers on success. *)
Inductive add_item_response : Type :=
| Item_added.                   (* 201 {"message": "Item added"} *)

Record checkout_response (F : Type) : Type := mkCheckoutResponse {
  co_new_quantity : Z;
  co_low_stock_alert : bool;
  co_unit_price_at_time : F;
  co_line_value : F
}.

Record receive_response (F : Type) : Type := mkReceiveResponse {
  re_new_quantity : Z;
  re_unit_price_at_time : F
}.

Record reverse_response : Type := mkReverseResponse {
  rv_item_id : Z;
  rv_new_quantity : Z;
  rv_reversed_from : Z
}.

(** A line of the job report. *)
Record usage_item (F : Type) : Type := mkUsageItem {
  u_item_id : Z;
  u_name : string;
  u_net_qty : Z;
  u_unit_price : F;
  u_line_total : F
}.

(** The job report ([generated_at], a clock reading, is left out). *)
Record job_usage_response (F : Type) : Type := mkJobUsageResponse {
  ju_job_no : string;
  ju_total_value : F;
  ju_items : list (usage_item F)
}.

(** A row of the SELECT in [_job_usage]. *)
Record usage_row (F : Type) : Type := mkUsageRow {
  r_item_id : Z;
  r_name : string;
  r_unit_price : F;
  r_sum_change : Z
}.

Section Handlers.

Context {F : Type} `{Float F}.

(** [float(x or 0)]: a zero of any type becomes [float(0)]. *)
Definition float_or0 (x : F) : F :=
  if F_eq_dec x fzero then fzero else x.

(** [int(x or 0)] *)
Definition int_or0 (n : Z) : Z := if n =? 0 then 0 else n.

(** *** Queries and writes *)

(** [SELECT * FROM stock WHERE id=?] with [fetchone()] *)
Definition select_item (item_id : Z) : DB F (option (Stock.row F)) :=
  fun s => (Ok (find (fun r => Stock.id r =? item_id) (stock s)), s).

(** [SELECT * FROM transactions WHERE id=?] with [fetchone()] *)
Definition select_transaction (tx_id : Z) : DB F (option (Tx.row F)) :=
  fun s => (Ok (find (fun t => Tx.id t =? tx_id) (transactions s)), s).

(** [SELECT 1 FROM transactions WHERE action='reverse' AND reversed_from=?
    LIMIT 1] *)
Definition reverses (tx_id : Z) (t : Tx.row F) : bool :=
  Action.eqb (Tx.action t) Action.reverse &&
  match Tx.reversed_from t with
  | Some k => k =? tx_id
  | None => false
  end.

Definition select_reversal (tx_id : Z) : DB F (option (Tx.row F)) :=
  fun s => (Ok (find (reverses tx_id) (transactions s)), s).

(** [INSERT INTO stock(name, quantity, min_level, unit_price, supplier,
    reorder_qty)]: the row gets the next AUTOINCREMENT id. *)
Definition insert_stock (name : string) (quantity min_level : Z)
    (unit_price : F) (supplier : string) (reorder_qty : Z) : DB F unit :=
  fun s =>
    let new_id := stock_seq s + 1 in
    (Ok tt,
     mkStore
       (stock s ++
        [Stock.mk new_id name quantity min_level unit_price supplier
           reorder_qty])
       new_id (transactions s) (transactions_seq s)).

(** [UPDATE stock SET quantity=? WHERE id=?] *)
Definition update_quantity (new_qty item_id : Z) : DB F unit :=
  fun s =>
    (Ok tt,
     mkStore
       (map (fun r => if Stock.id r =? item_id
                      then Stock.set_quantity new_qty r else r)
            (stock s))
       (stock_seq s) (transactions s) (transactions_seq s)).

(** [INSERT INTO transactions(item_id, change_qty, job_no, action,
    unit_price, reversed_from, is_reversed)]; the two-statement form of
    [checkout] and [receive] leaves [reversed_from] NULL and [is_reversed]
    at its default 0. *)
Definition insert_transaction (item_id change_qty : Z)
    (job_no : option string) (action : Action.t) (unit_price : F)
    (reversed_from : option Z) : DB F unit :=
  fun s =>
    let new_id := transactions_seq s + 1 in
    (Ok tt,
     mkStore (stock s) (stock_seq s)
       (transactions s ++
        [Tx.mk new_id item_id change_qty job_no action unit_price
           reversed_from 0])
       new_id).

(** *** [POST /stock] *)
Definition add_item (auth : bool)
    (j_name : option string) (j_quantity j_min_level : option Z)
    (j_unit_price : option F) (j_supplier : option string)
    (j_reorder_qty : option Z) : DB F add_item_response :=
  reject_if (negb auth) unauthorized ;;;
  let name := strip (str_or_empty j_name) in
  let quantity := get0 j_quantity in
  let min_level := get0 j_min_level in
  let unit_price :=
    float_or0 (match j_unit_price with Some p => p | None => fzero end) in
  let supplier := strip (str_or_empty j_supplier) in
  let reorder_qty := get0 j_reorder_qty in
  reject_if (negb (nonempty name)) name_is_required ;;;
  reject_if ((quantity <? 0) || (min_level <? 0) || fneg unit_price
             || (reorder_qty <? 0))
            values_cannot_be_negative ;;;
  insert_stock name quantity min_level unit_price supplier reorder_qty ;;;
  ret Item_added.

(** *** [POST /checkout] *)
Definition checkout (auth : bool) (j_item_id j_quantity : option Z)
    (j_job_no : option string) : DB F (checkout_response F) :=
  reject_if (negb auth) unauthorized ;;;
  let item_id := get0 j_item_id in
  let qty := get0 j_quantity in
  let job_no := strip (str_or_empty j_job_no) in
  reject_if ((item_id <=? 0) || (qty <=? 0))
            item_id_and_quantity_must_be_positive ;;;
  reject_if (negb (nonempty job_no)) job_no_is_required ;;;
  found <- select_item item_id ;;
  match found with
  | None => fail item_not_found
  | Some item =>
      reject_if (Stock.quantity item <? qty) not_enough_stock ;;;
      let new_qty := Stock.quantity item - qty in
      let unit_price := float_or0 (Stock.unit_price item) in
      update_quantity new_qty item_id ;;;
      insert_transaction item_id (- qty) (Some job_no) Action.checkout
                         unit_price None ;;;
      let low := new_qty <=? Stock.min_level item in
      let spent := round2 (fmul_int qty unit_price) in
      ret (mkCheckoutResponse new_qty low unit_price spent)
  end.

(** *** [POST /receive] *)
Definition receive (auth : bool) (j_item_id j_quantity : option Z)
    : DB F (receive_response F) :=
  reject_if (negb auth) unauthorized ;;;
  let item_id := get0 j_item_id in
  let qty := get0 j_quantity in
  reject_if ((item_id <=? 0) || (qty <=? 0))
            item_id_and_quantity_must_be_positive ;;;
  found <- select_item item_id ;;
  match found with
  | None => fail item_not_found
  | Some item =>
      let new_qty := Stock.quantity item + qty in
      let unit_price := float_or0 (Stock.unit_price item) in
      update_quantity new_qty item_id ;;;
      insert_transaction item_id qty None Action.receive unit_price None ;;;
      ret (mkReceiveResponse new_qty unit_price)
  end.

(** *** [POST /reverse] *)
Definition reverse_transaction (auth : bool) (j_transaction_id : option Z)
    : DB F reverse_response :=
  reject_if (negb auth) unauthorized ;;;
  let tx_id := get0 j_transaction_id in
  reject_if (tx_id <=? 0) transaction_id_must_be_positive ;;;
  found <- select_transaction tx_id ;;
  match found with
  | None => fail transaction_not_found
  | Some tx =>
      reject_if (Action.eqb (Tx.action tx) Action.reverse)
                cannot_reverse_a_reverse ;;;
      already <- select_reversal tx_id ;;
      reject_if (match already with Some _ => true | None => false end)
                transaction_already_reversed ;;;
      found_item <- select_item (Tx.item_id tx) ;;
      match found_item with
      | None => fail item_no_longer_exists
      | Some item =>
          let original_change := Tx.change_qty tx in
          let reverse_change := - original_change in
          let new_qty := Stock.quantity item + reverse_change in
          reject_if (new_qty <? 0) reversal_would_make_stock_negative ;;;
          let unit_price_at_time := float_or0 (Tx.unit_price tx) in
          update_quantity new_qty (Tx.item_id tx) ;;;
          insert_transaction (Tx.item_id tx) reverse_change (Tx.job_no tx)
                             Action.reverse unit_price_at_time
                             (Some tx_id) ;;;
          ret (mkReverseResponse (Tx.item_id tx) new_qty tx_id)
      end
  end.

(** *** The job report *)

(** [WHERE t.job_no = ? AND t.action IN ('checkout', 'reverse')]; a NULL
    [job_no] equals nothing. *)
Definition usage_where (job_no : string) (t : Tx.row F) : bool :=
  match Tx.job_no t with
  | Some j => String.eqb j job_no
  | None => false
  end &&
  (Action.eqb (Tx.action t) Action.checkout
   || Action.eqb (Tx.action t) Action.reverse).

(** [FROM transactions t JOIN stock s ON s.id = t.item_id WHERE ...]: one
    row per selected transaction and stock row it joins, carrying the
    columns the SELECT goes on to use ([r_sum_change] holds the single
    [t.change_qty] here). *)
Definition usage_join (s : store F) (job_no : string) : list (usage_row F) :=
  flat_map
    (fun t =>
       if usage_where job_no t then
         map (fun it => mkUsageRow (Stock.id it) (Stock.name it)
                                   (Tx.unit_price t) (Tx.change_qty t))
             (filter (fun it => Stock.id it =? Tx.item_id t) (stock s))
       else [])
    (transactions s).

(** The grouping columns [s.id, s.name, t.unit_price]. *)
Definition group_key (r : usage_row F) : Z * string * F :=
  (r_item_id r, r_name r, r_unit_price r).

Definition group_key_dec (k1 k2 : Z * string * F) : {k1 = k2} + {k1 <> k2}.
Proof.
  decide equality; [apply F_eq_dec | decide equality;
                                     [apply string_dec | apply Z.eq_dec]].
Defined.

Definition in_group (k : Z * string * F) (r : usage_row F) : bool :=
  if group_key_dec (group_key r) k then true else false.

Definition sumZ (l : list Z) : Z := fold_right Z.add 0 l.

(** [GROUP BY s.id, s.name, t.unit_price] with [SUM(t.change_qty)]: one row
    per distinct key, summing over the rows of the group. *)
Definition group_by (rows : list (usage_row F)) : list (usage_row F) :=
  map (fun k =>
         match k with
         | (item_id, name, unit_price) =>
             mkUsageRow item_id name unit_price
               (sumZ (map (@r_sum_change F) (filter (in_group k) rows)))
         end)
      (nodup group_key_dec (map group_key rows)).

(** [ORDER BY s.name], under SQLite's BINARY collation.  SQL leaves the
    order of rows of equal name open: here they keep the order in which
    their groups first occur in the log, whereas SQLite returns them in the
    order of the grouping columns.  No statement below says anything about
    the order of rows of equal name. *)
Fixpoint insert_by_name (r : usage_row F) (l : list (usage_row F))
    : list (usage_row F) :=
  match l with
  | [] => [r]
  | x :: l' =>
      if String.leb (r_name r) (r_name x) then r :: l
      else x :: insert_by_name r l'
  end.

Definition order_by_name (l : list (usage_row F)) : list (usage_row F) :=
  fold_right insert_by_name [] l.

(** The SELECT of [_job_usage]. *)
Definition usage_select (s : store F) (job_no : string)
    : list (usage_row F) :=
  order_by_name (group_by (usage_join s job_no)).

(** One round of [for r in rows]. *)
Definition usage_line (r : usage_row F) : usage_item F :=
  let sum_change := int_or0 (r_sum_change r) in
  let net_qty := - sum_change in
  let unit_price := float_or0 (r_unit_price r) in
  let line_total := round2 (fmul_int net_qty unit_price) in
  mkUsageItem (r_item_id r) (r_name r) net_qty unit_price line_total.

(** The loop of [_job_usage], with its two accumulators. *)
Fixpoint usage_loop (rows : list (usage_row F)) (items : list (usage_item F))
    (total : F) : list (usage_item F) * F :=
  match rows with
  | [] => (items, total)
  | r :: rows' =>
      let it := usage_line r in
      usage_loop rows' (items ++ [it]) (fadd total (u_line_total it))
  end.

Definition _job_usage (s : store F) (job_no : string)
    : list (usage_item F) * F :=
  let rows := usage_select s job_no in
  let (items, total) := usage_loop rows [] fzero in
  (items, round2 total).

(** *** [GET /job/<job_no>/usage] *)
Definition job_usage (auth : bool) (job_no : string)
    : DB F (job_usage_response F) :=
  reject_if (negb auth) unauthorized ;;;
  let job_no := strip job_no in
  reject_if (negb (nonempty job_no)) job_no_is_required ;;;
  fun s =>
    let (items, total) := _job_usage s job_no in
    (reject_if (match items with [] => true | _ => false end)
               no_usage_found ;;;
     ret (mkJobUsageResponse job_no total items)) s.

(** *** Histories *)

(** The requests that write. *)
Inductive request : Type :=
| POST_stock (auth : bool) (name : option string)
    (quantity min_level : option Z) (unit_price : option F)
    (supplier : option string) (reorder_qty : option Z)
| POST_checkout (auth : bool) (item_id quantity : option Z)
    (job_no : option string)
| POST_receive (auth : bool) (item_id quantity : option Z)
| POST_reverse (auth : bool) (transaction_id : option Z).

(** Whether the request is answered without error, and the database it
    leaves. *)
Definition serve (r : request) (s : store F) : bool * store F :=
  match r with
  | POST_stock a n q m p su ro =>
      let (x, s') := add_item a n q m p su ro s in (is_ok x, s')
  | POST_checkout a i q j =>
      let (x, s') := checkout a i q j s in (is_ok x, s')
  | POST_receive a i q =>
      let (x, s') := receive a i q s in (is_ok x, s')
  | POST_reverse a t =>
      let (x, s') := reverse_transaction a t s in (is_ok x, s')
  end.

Definition handle (r : request) (s : store F) : store F := snd (serve r s).

Definition run (h : list request) (s : store F) : store F :=
  fold_left (fun s r => handle r s) h s.

(** The database after a history of requests on a fresh database. *)
Definition exec (h : list request) : store F := run h empty_store.

Inductive reachable : store F -> Prop :=
| reachable_empty : reachable empty_store
| reachable_handle r s : reachable s -> reachable (handle r s).

(** The quantity each item was created with, read off the history: a
    served [POST /stock] creates item [stock_seq + 1] with the quantity of
    the request. *)
Definition note_creation (r : request) (s : store F) (c : Z -> option Z)
    : Z -> option Z :=
  match r with
  | POST_stock _ _ q _ _ _ _ =>
      if fst (serve r s)
      then fun i => if i =? stock_seq s + 1 then Some (get0 q) else c i
      else c
  | _ => c
  end.

Fixpoint creations (h : list request) (s : store F) (c : Z -> option Z)
    : Z -> option Z :=
  match h with
  | [] => c
  | r :: h' => creations h' (handle r s) (note_creation r s c)
  end.

Definition creation_quantity (h : list request) : Z -> option Z :=
  creations h empty_store (fun _ => None).

(** The sum of [change_qty] over the transaction rows of an item. *)
Definition sum_change (item_id : Z) (txs : list (Tx.row F)) : Z :=
  sumZ (map (@Tx.change_qty F)
            (filter (fun t => Tx.item_id t =? item_id) txs)).

(** *** Reading a database *)

Definition item_of (s : store F) (item_id : Z) : option (Stock.row F) :=
  find (fun r => Stock.id r =? item_id) (stock s).

Definition tx_of (s : store F) (tx_id : Z) : option (Tx.row F) :=
  find (fun t => Tx.id t =? tx_id) (transactions s).

Definition quantity_of (s : store F) (item_id : Z) : option Z :=
  option_map (@Stock.quantity F) (item_of s item_id).

(** *** Consistency of a database *)

Definition quantities_nonneg (s : store F) : Prop :=
  Forall (fun it => 0 <= Stock.quantity it) (stock s).

(** What the keys, the FOREIGN KEY and the handlers maintain. *)
Record consistent (s : store F) : Prop := mkConsistent {
  stock_seq_nonneg : 0 <= stock_seq s;
  transactions_seq_nonneg : 0 <= transactions_seq s;
  item_ids_unique : NoDup (map (@Stock.id F) (stock s));
  item_ids_issued :
    Forall (fun it => 0 < Stock.id it <= stock_seq s) (stock s);
  tx_ids_unique : NoDup (map (@Tx.id F) (transactions s));
  tx_ids_issued :
    Forall (fun t => 0 < Tx.id t <= transactions_seq s) (transactions s);
  tx_items_exist :
    Forall (fun t => exists it, In it (stock s) /\ Stock.id it = Tx.item_id t)
           (transactions s);
  reversals_linked :
    Forall (fun t => forall k, Tx.reversed_from t = Some k ->
                       Tx.action t = Action.reverse /\ 0 < k < Tx.id t)
           (transactions s)
}.

(** *** The write of a ledger operation *)

(** The two statements every served [checkout], [receive] and [reverse]
    ends with: [UPDATE stock SET quantity=new_qty WHERE id=item_id], then
    the INSERT of one transaction row. *)
Definition ledger_write (s : store F) (item_id new_qty change_qty : Z)
    (job_no : option string) (action : Action.t) (unit_price : F)
    (reversed_from : option Z) : store F :=
  snd ((update_quantity new_qty item_id ;;;
        insert_transaction item_id change_qty job_no action unit_price
                           reversed_from) s).

(** The item a ledger request is about: the one named in the request, or
    the item of the transaction a reversal names. *)
Definition target (r : request) (s : store F) : option Z :=
  match r with
  | POST_stock _ _ _ _ _ _ _ => None
  | POST_checkout _ i _ _ => Some (get0 i)
  | POST_receive _ i _ => Some (get0 i)
  | POST_reverse _ t => option_map (@Tx.item_id F) (tx_of s (get0 t))
  end.

Definition is_ledger_request (r : request) : bool :=
  match r with
  | POST_stock _ _ _ _ _ _ _ => false
  | _ => true
  end.

(** Two stock rows that differ at most in [quantity]. *)
Definition same_but_quantity (a b : Stock.row F) : Prop :=
  Stock.id b = Stock.id a /\ Stock.name b = Stock.name a /\
  Stock.min_level b = Stock.min_level a /\
  Stock.unit_price b = Stock.unit_price a /\
  Stock.supplier b = Stock.supplier a /\
  Stock.reorder_qty b = Stock.reorder_qty a.

(** A transaction row counts towards the usage of [job_no]. *)
Definition selected (job_no : string) (t : Tx.row F) : Prop :=
  Tx.job_no t = Some job_no /\
  (Tx.action t = Action.checkout \/ Tx.action t = Action.reverse).

(** The selected rows of one item at one price. *)
Definition in_usage_group (job_no : string) (item_id : Z) (unit_price : F)
    (t : Tx.row F) : bool :=
  usage_where job_no t && (Tx.item_id t =? item_id) &&
  (if F_eq_dec (Tx.unit_price t) unit_price then true else false).

(** *** The outcomes of the handlers

    One constructor per path through each handler: the tests passed on the
    way, the response, and the database left. *)

Inductive add_item_outcome (a : bool) (n : option string)
    (q m : option Z) (p : option F) (su : option string) (ro : option Z)
    (s : store F) : result add_item_response * store F -> Prop :=
| ai_unauthorized :
    a = false ->
    add_item_outcome a n q m p su ro s (Err unauthorized, s)
| ai_no_name :
    a = true -> strip (str_or_empty n) = EmptyString ->
    add_item_outcome a n q m p su ro s (Err name_is_required, s)
| ai_negative :
    a = true -> strip (str_or_empty n) <> EmptyString ->
    (get0 q < 0 \/ get0 m < 0 \/
     fneg (match p with Some x => x | None => fzero end) = true \/
     get0 ro < 0) ->
    add_item_outcome a n q m p su ro s (Err values_cannot_be_negative, s)
| ai_added :
    a = true -> strip (str_or_empty n) <> EmptyString ->
    0 <= get0 q -> 0 <= get0 m ->
    fneg (match p with Some x => x | None => fzero end) = false ->
    0 <= get0 ro ->
    add_item_outcome a n q m p su ro s
      (Ok Item_added,
       mkStore
         (stock s ++
          [Stock.mk (stock_seq s + 1) (strip (str_or_empty n)) (get0 q)
             (get0 m) (match p with Some x => x | None => fzero end)
             (strip (str_or_empty su)) (get0 ro)])
         (stock_seq s + 1) (transactions s) (transactions_seq s)).

Inductive checkout_outcome (a : bool) (i q : option Z) (j : option string)
    (s : store F) : result (checkout_response F) * store F -> Prop :=
| co_unauthorized :
    a = false -> checkout_outcome a i q j s (Err unauthorized, s)
| co_not_positive :
    a = true -> (get0 i <= 0 \/ get0 q <= 0) ->
    checkout_outcome a i q j s
      (Err item_id_and_quantity_must_be_positive, s)
| co_no_job :
    a = true -> 0 < get0 i -> 0 < get0 q ->
    strip (str_or_empty j) = EmptyString ->
    checkout_outcome a i q j s (Err job_no_is_required, s)
| co_no_item :
    a = true -> 0 < get0 i -> 0 < get0 q ->
    strip (str_or_empty j) <> EmptyString ->
    item_of s (get0 i) = None ->
    checkout_outcome a i q j s (Err item_not_found, s)
| co_short it :
    a = true -> 0 < get0 i -> 0 < get0 q ->
    strip (str_or_empty j) <> EmptyString ->
    item_of s (get0 i) = Some it ->
    Stock.quantity it < get0 q ->
    checkout_outcome a i q j s (Err not_enough_stock, s)
| co_served it :
    a = true -> 0 < get0 i -> 0 < get0 q ->
    strip (str_or_empty j) <> EmptyString ->
    item_of s (get0 i) = Some it ->
    get0 q <= Stock.quantity it ->
    checkout_outcome a i q j s
      (Ok (mkCheckoutResponse
             (Stock.quantity it - get0 q)
             (Stock.quantity it - get0 q <=? Stock.min_level it)
             (Stock.unit_price it)
             (round2 (fmul_int (get0 q) (Stock.unit_price it)))),
       ledger_write s (get0 i) (Stock.quantity it - get0 q) (- get0 q)
         (Some (strip (str_or_empty j))) Action.checkout
         (Stock.unit_price it) None).

Inductive receive_outcome (a : bool) (i q : option Z) (s : store F)
    : result (receive_response F) * store F -> Prop :=
| rc_unauthorized :
    a = false -> receive_outcome a i q s (Err unauthorized, s)
| rc_not_positive :
    a = true -> (get0 i <= 0 \/ get0 q <= 0) ->
    receive_outcome a i q s (Err item_id_and_quantity_must_be_positive, s)
| rc_no_item :
    a = true -> 0 < get0 i -> 0 < get0 q ->
    item_of s (get0 i) = None ->
    receive_outcome a i q s (Err item_not_found, s)
| rc_served it :
    a = true -> 0 < get0 i -> 0 < get0 q ->
    item_of s (get0 i) = Some it ->
    receive_outcome a i q s
      (Ok (mkReceiveResponse (Stock.quantity it + get0 q)
                             (Stock.unit_price it)),
       ledger_write s (get0 i) (Stock.quantity it + get0 q) (get0 q)
         None Action.receive (Stock.unit_price it) None).

(** Some row of the log is a reversal of [tx_id], as the double-reverse
    query sees it. *)
Definition reversal_exists (s : store F) (tx_id : Z) : Prop :=
  exists t, In t (transactions s) /\ reverses tx_id t = true.

Inductive reverse_outcome (a : bool) (t : option Z) (s : store F)
    : result reverse_response * store F -> Prop :=
| rv_unauthorized :
    a = false -> reverse_outcome a t s (Err unauthorized, s)
| rv_not_positive :
    a = true -> get0 t <= 0 ->
    reverse_outcome a t s (Err transaction_id_must_be_positive, s)
| rv_no_tx :
    a = true -> 0 < get0 t -> tx_of s (get0 t) = None ->
    reverse_outcome a t s (Err transaction_not_found, s)
| rv_chained tx :
    a = true -> 0 < get0 t -> tx_of s (get0 t) = Some tx ->
    Tx.action tx = Action.reverse ->
    reverse_outcome a t s (Err cannot_reverse_a_reverse, s)
| rv_twice tx :
    a = true -> 0 < get0 t -> tx_of s (get0 t) = Some tx ->
    Tx.action tx <> Action.reverse ->
    reversal_exists s (get0 t) ->
    reverse_outcome a t s (Err transaction_already_reversed, s)
| rv_no_item tx :
    a = true -> 0 < get0 t -> tx_of s (get0 t) = Some tx ->
    Tx.action tx <> Action.reverse ->
    ~ reversal_exists s (get0 t) ->
    item_of s (Tx.item_id tx) = None ->
    reverse_outcome a t s (Err item_no_longer_exists, s)
| rv_negative tx it :
    a = true -> 0 < get0 t -> tx_of s (get0 t) = Some tx ->
    Tx.action tx <> Action.reverse ->
    ~ reversal_exists s (get0 t) ->
    item_of s (Tx.item_id tx) = Some it ->
    Stock.quantity it - Tx.change_qty tx < 0 ->
    reverse_outcome a t s (Err reversal_would_make_stock_negative, s)
| rv_served tx it :
    a = true -> 0 < get0 t -> tx_of s (get0 t) = Some tx ->
    Tx.action tx <> Action.reverse ->
    ~ reversal_exists s (get0 t) ->
    item_of s (Tx.item_id tx) = Some it ->
    0 <= Stock.quantity it - Tx.change_qty tx ->
    reverse_outcome a t s
      (Ok (mkReverseResponse (Tx.item_id tx)
             (Stock.quantity it - Tx.change_qty tx) (get0 t)),
       ledger_write s (Tx.item_id tx)
         (Stock.quantity it - Tx.change_qty tx) (- Tx.change_qty tx)
         (Tx.job_no tx) Action.reverse (Tx.unit_price tx)
         (Some (get0 t))).

(** Under the creation quantities [c], every item's quantity is accounted
    for by the log. *)
Definition accounted (c : Z -> option Z) (s : store F) : Prop :=
  forall it, In it (stock s) ->
    exists q0, c (Stock.id it) = Some q0 /\
               Stock.quantity it =
               q0 + sum_change (Stock.id it) (transactions s).

(** Row names in ascending byte order. *)
Definition name_le (r1 r2 : usage_row F) : Prop :=
  String.leb (r_name r1) (r_name r2) = true.

End Handlers.

Arguments ledger_write : simpl never.
Arguments group_key_dec : simpl never.
Arguments in_group : simpl never.

(* ------------------------------------------------------------------ *)
(** ** Concrete histories *)

(** The scenario of the specification: item A at 10.00 with 100 in stock,
    two checkouts for job J1, then the reversal of the first. *)
Definition scenario_item : request (F:=Z) :=
  POST_stock true (Some "A"%string) (Some 100) None (Some (rands 10)) None
             None.

Definition scenario : list (request (F:=Z)) :=
  [scenario_item;
   POST_checkout true (Some 1) (Some 5) (Some "J1"%string);
   POST_checkout true (Some 1) (Some 3) (Some "J1"%string)].

Definition scenario_first : list (request (F:=Z)) :=
  [scenario_item;
   POST_checkout true (Some 1) (Some 5) (Some "J1"%string)].

(** The first checkout, then its reversal: job J1 nets to nothing. *)
Definition fully_reversed : list (request (F:=Z)) :=
  scenario_first ++ [POST_reverse true (Some 1)].

Definition scenario_reversed : list (request (F:=Z)) :=
  scenario ++ [POST_reverse true (Some 1)].

(** A database in which the price of item 1 was edited from 10.00 to 12.50
    after its checkout. *)
Definition repriced : store Z :=
  mkStore
    [Stock.mk 1 "A"%string 95 0 (rands 25 / 2) EmptyString 0] 1
    [Tx.mk 1 1 (-5) (Some "J1"%string) Action.checkout (rands 10) None 0] 1.

(** ... and two more were then checked out for the same job. *)
Definition repriced_again : store Z :=
  snd (checkout true (Some 1) (Some 2) (Some "J1"%string) repriced).

(* ------------------------------------------------------------------ *)
(** ** The token gate and the two listings *)

(** [AUTH_TOKEN = os.environ.get("TOPCAR_TOKEN", "topcar2025!")] *)
Definition AUTH_TOKEN (env : option string) : string :=
  match env with Some t => t | None => "topcar2025!"%string end.

(** [require_auth()]: the header [X-Auth-Token], read as empty when it is
    absent, against the configured token. *)
Definition require_auth (env header : option string) : bool :=
  String.eqb (match header with Some t => t | None => EmptyString end)
             (AUTH_TOKEN env).

(** A row of the reorder list: the columns [id, name, quantity, min_level,
    supplier, reorder_qty]. *)
Record reorder_row : Type := mkReorderRow {
  ro_id : Z;
  ro_name : string;
  ro_quantity : Z;
  ro_min_level : Z;
  ro_supplier : string;
  ro_reorder_qty : Z
}.

Section Listings.

Context {F : Type}.

(** [ORDER BY name] on stock rows, under the BINARY collation; rows of
    equal name keep the order of the table (SQL leaves that order open). *)
Fixpoint insert_stock_by_name (r : Stock.row F) (l : list (Stock.row F))
    : list (Stock.row F) :=
  match l with
  | [] => [r]
  | x :: l' =>
      if String.leb (Stock.name r) (Stock.name x) then r :: l
      else x :: insert_stock_by_name r l'
  end.

Definition order_stock_by_name (l : list (Stock.row F))
    : list (Stock.row F) :=
  fold_right insert_stock_by_name [] l.

(** [GET /stock]: [SELECT * FROM stock ORDER BY name]; no token asked. *)
Definition get_stock (s : store F) : list (Stock.row F) :=
  order_stock_by_name (stock s).

(** [WHERE quantity <= min_level] *)
Definition needs_reorder (r : Stock.row F) : bool :=
  Stock.quantity r <=? Stock.min_level r.

(** [GET /reorder]: [SELECT id, name, quantity, min_level, supplier,
    reorder_qty FROM stock WHERE quantity <= min_level ORDER BY name]; no
    token asked. *)
Definition reorder_list (s : store F) : list reorder_row :=
  map (fun r => mkReorderRow (Stock.id r) (Stock.name r) (Stock.quantity r)
                             (Stock.min_level r) (Stock.supplier r)
                             (Stock.reorder_qty r))
      (order_stock_by_name (filter needs_reorder (stock s))).

(** Stock rows in ascending byte order of name. *)
Definition stock_name_le (a b : Stock.row F) : Prop :=
  String.leb (Stock.name a) (Stock.name b) = true.

(** *** What the rows of a reachable database look like *)

(** The ids a log's reversal rows point at, in log order. *)
Definition reversal_targets (txs : list (Tx.row F)) : list Z :=
  flat_map (fun t => match Tx.reversed_from t with
                     | Some k => [k]
                     | None => []
                     end) txs.

(** A reversal row repeats the row it points at, with the change negated. *)
Definition mirrors (s : store F) (t : Tx.row F) : Prop :=
  forall k, Tx.reversed_from t = Some k ->
    exists o, tx_of s k = Some o /\
      Tx.action o <> Action.reverse /\
      Tx.item_id t = Tx.item_id o /\
      Tx.change_qty t = - Tx.change_qty o /\
      Tx.unit_price t = Tx.unit_price o /\
      Tx.job_no t = Tx.job_no o.

(** What each kind of row holds. *)
Definition tx_shape (t : Tx.row F) : Prop :=
  Tx.is_reversed t = 0 /\
  match Tx.action t with
  | Action.checkout =>
      Tx.change_qty t < 0 /\ Tx.reversed_from t = None /\
      exists j, Tx.job_no t = Some j /\ j <> EmptyString /\ strip j = j
  | Action.receive =>
      0 < Tx.change_qty t /\ Tx.reversed_from t = None /\
      Tx.job_no t = None
  | Action.reverse => exists k, Tx.reversed_from t = Some k
  end.

(** Ids are handed out from 1 in insertion order. *)
Definition counted_from_one (ids : list Z) (seq_value : Z) : Prop :=
  ids = map Z.of_nat (seq 1 (List.length ids)) /\
  seq_value = Z.of_nat (List.length ids).

End Listings.

Section RowFacts.

Context {F : Type} `{Float F}.

(** What [add_item] lets into the stock table. *)
Definition item_valid (it : Stock.row F) : Prop :=
  Stock.name it <> EmptyString /\ strip (Stock.name it) = Stock.name it /\
  strip (Stock.supplier it) = Stock.supplier it /\
  0 <= Stock.quantity it /\ 0 <= Stock.min_level it /\
  fneg (Stock.unit_price it) = false /\ 0 <= Stock.reorder_qty it.

(** The id has a reversal row in the log. *)
Definition is_reversed_in (txs : list (Tx.row F)) (tx_id : Z) : bool :=
  existsb (fun k => k =? tx_id) (reversal_targets txs).

(** A checkout row of the job, item and price that no row of the log
    reverses. *)
Definition standing_checkout (txs : list (Tx.row F)) (job_no : string)
    (item_id : Z) (unit_price : F) (t : Tx.row F) : bool :=
  in_usage_group job_no item_id unit_price t &&
  Action.eqb (Tx.action t) Action.checkout &&
  negb (is_reversed_in txs (Tx.id t)).

(** The sum of [change_qty] over the rows of a log that pass a test. *)
Definition sum_where (f : Tx.row F -> bool) (txs : list (Tx.row F)) : Z :=
  sumZ (map (@Tx.change_qty F) (filter f txs)).

End RowFacts.

(* ------------------------------------------------------------------ *)
(** ** What each handler does, case by case *)

Section Outcomes.

Context {F : Type} `{Float F}.

Lemma float_or0_id (x : F) : float_or0 x = x.
Proof. unfold float_or0. destruct (F_eq_dec x fzero); congruence. Qed.

Lemma int_or0_id (n : Z) : int_or0 n = n.
Proof. unfold int_or0. destruct (Z.eqb_spec n 0); congruence. Qed.

Lemma nonempty_false (s : string) : nonempty s = false <-> s = EmptyString.
Proof. destruct s; simpl; split; congruence. Qed.

Lemma nonempty_true (s : string) : nonempty s = true <-> s <> EmptyString.
Proof. destruct s; simpl; split; congruence. Qed.

Lemma add_item_spec a n q m p su ro s :
  add_item_outcome a n q m p su ro s (add_item a n q m p su ro s).
Proof.
  unfold add_item, bind, reject_if, fail, ret, insert_stock.
  rewrite float_or0_id.
  destruct a; simpl; [|now constructor].
  destruct (nonempty (strip (str_or_empty n))) eqn:En; simpl.
  2:{ apply ai_no_name; [reflexivity | now apply nonempty_false]. }
  apply nonempty_true in En.
  destruct (Z.ltb_spec (get0 q) 0); simpl.
  { apply ai_negative; auto. }
  destruct (Z.ltb_spec (get0 m) 0); simpl.
  { apply ai_negative; auto. }
  destruct (fneg _) eqn:Ep; simpl.
  { apply ai_negative; auto. }
  destruct (Z.ltb_spec (get0 ro) 0); simpl.
  { apply ai_negative; auto. }
  now apply ai_added.
Qed.

Lemma checkout_spec a i q j s :
  checkout_outcome a i q j s (checkout a i q j s).
Proof.
  unfold checkout, bind, reject_if, fail, ret, select_item, ledger_write,
    bind.
  destruct a; simpl; [|now constructor].
  destruct (Z.leb_spec (get0 i) 0); simpl.
  { apply co_not_positive; auto. }
  destruct (Z.leb_spec (get0 q) 0); simpl.
  { apply co_not_positive; auto. }
  destruct (nonempty (strip (str_or_empty j))) eqn:Ej; simpl.
  2:{ apply co_no_job; auto. now apply nonempty_false. }
  apply nonempty_true in Ej.
  destruct (find _ (stock s)) as [it|] eqn:Ei.
  2:{ now apply co_no_item. }
  destruct (Z.ltb_spec (Stock.quantity it) (get0 q)); simpl.
  { now apply co_short with it. }
  rewrite float_or0_id.
  now apply co_served.
Qed.

Lemma receive_spec a i q s : receive_outcome a i q s (receive a i q s).
Proof.
  unfold receive, bind, reject_if, fail, ret, select_item, ledger_write,
    bind.
  destruct a; simpl; [|now constructor].
  destruct (Z.leb_spec (get0 i) 0); simpl.
  { apply rc_not_positive; auto. }
  destruct (Z.leb_spec (get0 q) 0); simpl.
  { apply rc_not_positive; auto. }
  destruct (find _ (stock s)) as [it|] eqn:Ei.
  2:{ now apply rc_no_item. }
  rewrite float_or0_id.
  now apply rc_served.
Qed.

Lemma action_eqb_eq (x y : Action.t) : Action.eqb x y = true <-> x = y.
Proof. destruct x, y; simpl; split; congruence. Qed.

Lemma find_none_iff {A} (p : A -> bool) (l : list A) :
  find p l = None <-> ~ exists x, In x l /\ p x = true.
Proof.
  split.
  - intros Hn [x [Hin Hp]].
    pose proof (find_none p l Hn x Hin). congruence.
  - intros Hno. destruct (find p l) as [x|] eqn:E; [|reflexivity].
    exfalso. apply Hno. exists x. now apply find_some in E.
Qed.

Lemma reverse_transaction_spec a t s :
  reverse_outcome a t s (reverse_transaction a t s).
Proof.
  unfold reverse_transaction, bind, reject_if, fail, ret, select_item,
    select_transaction, select_reversal, ledger_write, bind.
  destruct a; simpl; [|now constructor].
  destruct (Z.leb_spec (get0 t) 0); simpl.
  { now apply rv_not_positive. }
  destruct (find _ (transactions s)) as [tx|] eqn:Et.
  2:{ now apply rv_no_tx. }
  destruct (Action.eqb (Tx.action tx) Action.reverse) eqn:Ea; simpl.
  { apply rv_chained with tx; auto. now apply action_eqb_eq. }
  assert (Tx.action tx <> Action.reverse) as Hna.
  { intro Hc. apply action_eqb_eq in Hc. congruence. }
  destruct (find (reverses (get0 t)) (transactions s)) as [r|] eqn:Er; simpl.
  { apply rv_twice with tx; auto. exists r. now apply find_some in Er. }
  apply find_none_iff in Er.
  destruct (find _ (stock s)) as [it|] eqn:Ei.
  2:{ now apply rv_no_item with tx. }
  replace (Stock.quantity it + - Tx.change_qty tx)
    with (Stock.quantity it - Tx.change_qty tx) by lia.
  destruct (Z.ltb_spec (Stock.quantity it - Tx.change_qty tx) 0); simpl.
  { now apply rv_negative with tx it. }
  rewrite float_or0_id.
  now apply rv_served.
Qed.

End Outcomes.

(** Proof steps shared by the case analyses below. *)
Ltac break_hyps :=
  repeat match goal with
    | H : _ /\ _ |- _ => destruct H
    | H : exists _, _ |- _ => destruct H
    | H : fails_with _ _ |- _ => destruct H as [? [? ?]]
    | H : Err _ = Err _ |- _ => injection H as H; subst
    | H : Some _ = Some _ |- _ => injection H as H; subst
    | H : (_, _) = (_, _) |- _ => injection H as ? ?; subst
    | H : _ \/ _ |- _ => destruct H
    | H1 : ?x = Some _, H2 : ?x = Some _ |- _ =>
        rewrite H1 in H2; injection H2 as H2; subst
    | H1 : ?x = Some _, H2 : ?x = None |- _ =>
        rewrite H1 in H2; discriminate H2
    end.

Ltac close_case :=
  solve [ reflexivity | discriminate | lia | congruence | contradiction
        | tauto | eauto 8
        | unfold fails_with; eexists; split; reflexivity ].

(* ------------------------------------------------------------------ *)
(** ** Consistency is kept by every request *)

Section Consistency.

Context {F : Type} `{Float F}.

Implicit Types (s : store F) (r : request (F:=F)).

Lemma ledger_write_stock s i nq d j act p rf :
  stock (ledger_write s i nq d j act p rf) =
  map (fun x => if Stock.id x =? i then Stock.set_quantity nq x else x)
      (stock s).
Proof. reflexivity. Qed.

Lemma ledger_write_transactions s i nq d j act p rf :
  transactions (ledger_write s i nq d j act p rf) =
  transactions s ++ [Tx.mk (transactions_seq s + 1) i d j act p rf 0].
Proof. reflexivity. Qed.

Lemma ledger_write_stock_seq s i nq d j act p rf :
  stock_seq (ledger_write s i nq d j act p rf) = stock_seq s.
Proof. reflexivity. Qed.

Lemma ledger_write_transactions_seq s i nq d j act p rf :
  transactions_seq (ledger_write s i nq d j act p rf) =
  transactions_seq s + 1.
Proof. reflexivity. Qed.

Lemma map_set_quantity_ids (l : list (Stock.row F)) i nq :
  map (@Stock.id F)
      (map (fun x => if Stock.id x =? i then Stock.set_quantity nq x else x)
           l) =
  map (@Stock.id F) l.
Proof.
  rewrite map_map. apply map_ext. intro x.
  now destruct (Stock.id x =? i).
Qed.

Lemma item_of_some s i it :
  item_of s i = Some it -> In it (stock s) /\ Stock.id it = i.
Proof.
  unfold item_of. intro E. apply find_some in E.
  destruct E as [Hin Hid]. split; [assumption | lia].
Qed.

Lemma find_unique_key {A} (key : A -> Z) (l : list A) (x : A) :
  NoDup (map key l) -> In x l ->
  find (fun y => key y =? key x) l = Some x.
Proof.
  induction l as [|y l IH]; simpl; intros Hnd Hin; [contradiction|].
  inversion Hnd as [|? ? Hny Hnd']; subst.
  destruct Hin as [->|Hin].
  - now rewrite Z.eqb_refl.
  - destruct (Z.eqb_spec (key y) (key x)) as [E|_].
    + exfalso. apply Hny. rewrite E. now apply in_map.
    + now apply IH.
Qed.

Lemma item_of_in s it :
  consistent s -> In it (stock s) -> item_of s (Stock.id it) = Some it.
Proof.
  intros C Hin. apply (find_unique_key (@Stock.id F)); [apply C | exact Hin].
Qed.

Lemma tx_of_some s k t :
  tx_of s k = Some t -> In t (transactions s) /\ Tx.id t = k.
Proof.
  unfold tx_of. intro E. apply find_some in E.
  destruct E as [Hin Hid]. split; [assumption | lia].
Qed.

Lemma tx_of_in s t :
  consistent s -> In t (transactions s) -> tx_of s (Tx.id t) = Some t.
Proof.
  intros C Hin. apply (find_unique_key (@Tx.id F)); [apply C | exact Hin].
Qed.

Lemma consistent_empty : consistent (@empty_store F).
Proof. split; simpl; try lia; constructor. Qed.

Lemma consistent_insert_stock s n q m p su ro :
  consistent s ->
  consistent
    (mkStore (stock s ++ [Stock.mk (stock_seq s + 1) n q m p su ro])
       (stock_seq s + 1) (transactions s) (transactions_seq s)).
Proof.
  intros [N1 N2 C1 C2 C3 C4 C5 C6]. split; simpl; try assumption; try lia.
  - rewrite map_app. simpl.
    apply NoDup_app; [assumption | repeat constructor; simpl; tauto |].
    intros x Hx [<-|[]].
    apply in_map_iff in Hx. destruct Hx as [it [Hid Hin]].
    rewrite Forall_forall in C2. specialize (C2 it Hin). lia.
  - apply Forall_app. split.
    + eapply Forall_impl; [|exact C2]. simpl. intros; lia.
    + repeat constructor; simpl; lia.
  - eapply Forall_impl; [|exact C5]. simpl.
    intros t [it [Hin Hid]]. exists it. split; [|assumption].
    apply in_or_app. now left.
Qed.

Lemma consistent_ledger_write s i nq d j act p rf :
  consistent s ->
  (exists it, In it (stock s) /\ Stock.id it = i) ->
  (forall k, rf = Some k ->
             act = Action.reverse /\ 0 < k < transactions_seq s + 1) ->
  consistent (ledger_write s i nq d j act p rf).
Proof.
  intros [N1 N2 C1 C2 C3 C4 C5 C6] Hit Hrf.
  assert (forall t : Tx.row F,
            (exists it, In it (stock s) /\ Stock.id it = Tx.item_id t) ->
            exists it, In it (stock (ledger_write s i nq d j act p rf)) /\
                       Stock.id it = Tx.item_id t) as Hkeep.
  { intros t [it [Hin Hid]]. rewrite ledger_write_stock.
    eexists. split; [apply in_map; exact Hin|].
    now destruct (Stock.id it =? i). }
  split.
  - now rewrite ledger_write_stock_seq.
  - rewrite ledger_write_transactions_seq. lia.
  - rewrite ledger_write_stock, map_set_quantity_ids. assumption.
  - rewrite ledger_write_stock, ledger_write_stock_seq.
    apply Forall_map. eapply Forall_impl; [|exact C2]. simpl.
    intros x Hx. now destruct (Stock.id x =? i).
  - rewrite ledger_write_transactions, map_app. simpl.
    apply NoDup_app; [assumption | repeat constructor; simpl; tauto |].
    intros x Hx [<-|[]].
    apply in_map_iff in Hx. destruct Hx as [t [Hid Hin]].
    rewrite Forall_forall in C4. specialize (C4 t Hin). lia.
  - rewrite ledger_write_transactions, ledger_write_transactions_seq.
    apply Forall_app. split.
    + eapply Forall_impl; [|exact C4]. simpl. intros; lia.
    + repeat constructor; simpl; lia.
  - rewrite ledger_write_transactions. apply Forall_app. split.
    + eapply Forall_impl; [|exact C5]. exact Hkeep.
    + repeat constructor. apply Hkeep. exact Hit.
  - rewrite ledger_write_transactions. apply Forall_app. split.
    + exact C6.
    + constructor; [|constructor]. simpl. exact Hrf.
Qed.

Lemma item_of_exists s i it :
  item_of s i = Some it -> exists x, In x (stock s) /\ Stock.id x = i.
Proof. intro E. exists it. now apply item_of_some. Qed.

Lemma consistent_handle r s : consistent s -> consistent (handle r s).
Proof.
  intro C. unfold handle, serve.
  destruct r as [a n q m p su ro | a i q j | a i q | a t].
  - destruct (add_item_spec a n q m p su ro s); simpl; try assumption.
    now apply consistent_insert_stock.
  - destruct (checkout_spec a i q j s); simpl; try assumption.
    apply consistent_ledger_write; [assumption | | discriminate].
    eapply item_of_exists; eassumption.
  - destruct (receive_spec a i q s); simpl; try assumption.
    apply consistent_ledger_write; [assumption | | discriminate].
    eapply item_of_exists; eassumption.
  - destruct (reverse_transaction_spec a t s) as
      [| | | | | | |tx it Ha Ht Htx Hact Hrev Hit Hq]; simpl; try assumption.
    apply consistent_ledger_write; [assumption | |].
    + eapply item_of_exists; eassumption.
    + intros k [= <-]. split; [reflexivity|].
      apply tx_of_some in Htx. destruct Htx as [Hin Hid].
      pose proof (tx_ids_issued C) as C4.
      rewrite Forall_forall in C4. specialize (C4 tx Hin). lia.
Qed.

Lemma reachable_consistent s : reachable s -> consistent s.
Proof.
  induction 1; [apply consistent_empty | now apply consistent_handle].
Qed.

Lemma run_app (h1 h2 : list (request (F:=F))) s :
  run (h1 ++ h2) s = run h2 (run h1 s).
Proof. apply fold_left_app. Qed.

Lemma reachable_run h s : reachable s -> reachable (run h s).
Proof.
  revert s. induction h as [|r h IH]; simpl; intros s Hs; [assumption|].
  apply IH. now constructor.
Qed.

Lemma reachable_exec h : reachable (exec h).
Proof. apply reachable_run. constructor. Qed.

Lemma reachable_history s : reachable s -> exists h, s = exec h.
Proof.
  induction 1 as [|r s _ [h ->]].
  - now exists [].
  - exists (h ++ [r]). unfold exec. now rewrite run_app.
Qed.

(** An error response leaves the database as it was. *)
Lemma rejected_unchanged r s : fst (serve r s) = false -> handle r s = s.
Proof.
  unfold handle, serve.
  destruct r as [a n q m p su ro | a i q j | a i q | a t].
  - destruct (add_item_spec a n q m p su ro s); simpl; congruence.
  - destruct (checkout_spec a i q j s); simpl; congruence.
  - destruct (receive_spec a i q s); simpl; congruence.
  - destruct (reverse_transaction_spec a t s); simpl; congruence.
Qed.

End Consistency.

(* ------------------------------------------------------------------ *)
(** ** Stock never goes negative *)

Section NonNegative.

Context {F : Type} `{Float F}.

Implicit Types (s : store F) (r : request (F:=F)).

Lemma nonneg_ledger_write s i nq d j act p rf :
  quantities_nonneg s -> 0 <= nq ->
  quantities_nonneg (ledger_write s i nq d j act p rf).
Proof.
  unfold quantities_nonneg. intros Hs Hnq. rewrite ledger_write_stock.
  apply Forall_map. eapply Forall_impl; [|exact Hs]. simpl.
  intros x Hx. now destruct (Stock.id x =? i).
Qed.

Lemma nonneg_item s i it :
  quantities_nonneg s -> item_of s i = Some it -> 0 <= Stock.quantity it.
Proof.
  unfold quantities_nonneg. intros Hs E. apply item_of_some in E.
  rewrite Forall_forall in Hs. now apply Hs.
Qed.

Lemma nonneg_handle r s :
  quantities_nonneg s -> quantities_nonneg (handle r s).
Proof.
  intro Hs. unfold handle, serve.
  destruct r as [a n q m p su ro | a i q j | a i q | a t].
  - destruct (add_item_spec a n q m p su ro s); simpl; try assumption.
    unfold quantities_nonneg. simpl. apply Forall_app. split; [assumption|].
    now repeat constructor.
  - destruct (checkout_spec a i q j s); simpl; try assumption.
    apply nonneg_ledger_write; [assumption | lia].
  - destruct (receive_spec a i q s) as [| | |it Ha Hi Hq Hit];
      simpl; try assumption.
    apply nonneg_ledger_write; [assumption|].
    pose proof (nonneg_item _ Hs Hit). lia.
  - destruct (reverse_transaction_spec a t s); simpl; try assumption.
    apply nonneg_ledger_write; [assumption | lia].
Qed.

Lemma reachable_nonneg s : reachable s -> quantities_nonneg s.
Proof.
  induction 1; [constructor | now apply nonneg_handle].
Qed.

(** C1. In every database reachable from the empty one by create,
    checkout, receive and reverse requests, every item's quantity is at
    least 0, and it stays so whatever request comes next; a request that is
    answered with an error has written nothing; and the requests whose
    write would take a quantity below 0 are answered with an error: a
    creation with a negative quantity, a checkout of more than the item
    holds, a receipt of a negative amount larger than the stock, a reversal
    whose negated change exceeds the stock. *)
Theorem stock_never_negative s :
  reachable s ->
  quantities_nonneg s /\
  (forall r, quantities_nonneg (handle r s)) /\
  (forall r, fst (serve r s) = false -> handle r s = s) /\
  (forall a n q m p su ro,
     get0 q < 0 -> serve (POST_stock a n q m p su ro) s = (false, s)) /\
  (forall a i q j it,
     item_of s (get0 i) = Some it -> Stock.quantity it - get0 q < 0 ->
     serve (POST_checkout a i q j) s = (false, s)) /\
  (forall a i q it,
     item_of s (get0 i) = Some it -> Stock.quantity it + get0 q < 0 ->
     serve (POST_receive a i q) s = (false, s)) /\
  (forall a t tx it,
     tx_of s (get0 t) = Some tx -> item_of s (Tx.item_id tx) = Some it ->
     Stock.quantity it - Tx.change_qty tx < 0 ->
     serve (POST_reverse a t) s = (false, s)).
Proof.
  intro R. pose proof (reachable_nonneg R) as Hs.
  split; [assumption|].
  split; [intro r; now apply nonneg_handle|].
  split; [intro r; apply rejected_unchanged|].
  split; [|split; [|split]].
  - intros a n q m p su ro Hq. unfold serve.
    destruct (add_item_spec a n q m p su ro s); simpl;
      try reflexivity; lia.
  - intros a i q j it Hit Hq. unfold serve.
    destruct (checkout_spec a i q j s); simpl; try reflexivity.
    assert (it0 = it) by congruence. subst. lia.
  - intros a i q it Hit Hq. unfold serve.
    destruct (receive_spec a i q s); simpl; try reflexivity.
    assert (it0 = it) by congruence. subst.
    pose proof (nonneg_item _ Hs Hit). lia.
  - intros a t tx it Htx Hit Hq. unfold serve.
    destruct (reverse_transaction_spec a t s); simpl; try reflexivity.
    assert (tx0 = tx) by congruence. subst.
    assert (it0 = it) by congruence. subst. lia.
Qed.

End NonNegative.

Lemma stock_never_negative_witness :
  quantities_nonneg (exec scenario_reversed).
Proof.
  exact (proj1 (stock_never_negative (reachable_exec scenario_reversed))).
Defined.

(* ------------------------------------------------------------------ *)
(** ** Quantity is creation quantity plus the changes of the ledger *)

Section LedgerSum.

Context {F : Type} `{Float F}.

Implicit Types (s : store F) (r : request (F:=F)).

Lemma sumZ_app (l1 l2 : list Z) : sumZ (l1 ++ l2) = sumZ l1 + sumZ l2.
Proof.
  unfold sumZ. induction l1 as [|x l1 IH]; simpl; [reflexivity | lia].
Qed.

Lemma sum_change_snoc i (l : list (Tx.row F)) t :
  sum_change i (l ++ [t]) =
  sum_change i l + (if Tx.item_id t =? i then Tx.change_qty t else 0).
Proof.
  unfold sum_change. rewrite filter_app, map_app, sumZ_app. simpl.
  destruct (Tx.item_id t =? i); simpl; lia.
Qed.

Lemma sum_change_absent i (l : list (Tx.row F)) :
  Forall (fun t => Tx.item_id t <> i) l -> sum_change i l = 0.
Proof.
  unfold sum_change. induction 1 as [|t l Ht _ IH]; simpl; [reflexivity|].
  destruct (Z.eqb_spec (Tx.item_id t) i); [contradiction | exact IH].
Qed.

Lemma accounted_ledger_write c s i it d j act p rf :
  consistent s -> accounted c s -> item_of s i = Some it ->
  accounted c (ledger_write s i (Stock.quantity it + d) d j act p rf).
Proof.
  intros C A Hit x Hx.
  rewrite ledger_write_stock in Hx. apply in_map_iff in Hx.
  destruct Hx as [y [<- Hy]].
  rewrite ledger_write_transactions, sum_change_snoc. simpl.
  destruct (A y Hy) as [q0 [Hc Hq]].
  destruct (Z.eqb_spec (Stock.id y) i) as [E|E]; simpl.
  - assert (y = it) as ->.
    { pose proof (item_of_in _ C Hy) as E'. rewrite E in E'. congruence. }
    rewrite E, Z.eqb_refl. exists q0. rewrite E in Hq, Hc.
    split; [assumption | lia].
  - destruct (Z.eqb_spec i (Stock.id y)); [congruence|].
    exists q0. split; [assumption | lia].
Qed.

Lemma accounted_insert_stock c s n q m p su ro :
  consistent s -> accounted c s ->
  accounted (fun i => if i =? stock_seq s + 1 then Some q else c i)
    (mkStore (stock s ++ [Stock.mk (stock_seq s + 1) n q m p su ro])
       (stock_seq s + 1) (transactions s) (transactions_seq s)).
Proof.
  intros C A x Hx. simpl in *. apply in_app_or in Hx.
  pose proof (item_ids_issued C) as C2. rewrite Forall_forall in C2.
  destruct Hx as [Hx|[<-|[]]].
  - specialize (C2 x Hx).
    destruct (Z.eqb_spec (Stock.id x) (stock_seq s + 1)); [lia|].
    now apply A.
  - simpl. rewrite Z.eqb_refl. exists q. split; [reflexivity|].
    rewrite sum_change_absent; [lia|].
    eapply Forall_impl; [|exact (tx_items_exist C)]. simpl.
    intros t [it [Hin Hid]]. specialize (C2 it Hin). lia.
Qed.

Lemma accounted_handle c r s :
  consistent s -> accounted c s ->
  accounted (note_creation r s c) (handle r s).
Proof.
  intros C A. unfold note_creation, handle, serve.
  destruct r as [a n q m p su ro | a i q j | a i q | a t].
  - destruct (add_item_spec a n q m p su ro s); simpl; try assumption.
    now apply accounted_insert_stock.
  - destruct (checkout_spec a i q j s); simpl; try assumption.
    replace (Stock.quantity it - get0 q)
      with (Stock.quantity it + - get0 q) by lia.
    now apply accounted_ledger_write.
  - destruct (receive_spec a i q s); simpl; try assumption.
    now apply accounted_ledger_write.
  - destruct (reverse_transaction_spec a t s); simpl; try assumption.
    replace (Stock.quantity it - Tx.change_qty tx)
      with (Stock.quantity it + - Tx.change_qty tx) by lia.
    now apply accounted_ledger_write.
Qed.

Lemma accounted_run h : forall s c,
  consistent s -> accounted c s -> accounted (creations h s c) (run h s).
Proof.
  induction h as [|r h IH]; simpl; intros s c C A; [assumption|].
  apply IH; [now apply consistent_handle | now apply accounted_handle].
Qed.

Lemma find_map_same_id (l : list (Stock.row F)) (f : Stock.row F -> Stock.row F) k :
  (forall x, Stock.id (f x) = Stock.id x) ->
  find (fun x => Stock.id x =? k) (map f l) =
  option_map f (find (fun x => Stock.id x =? k) l).
Proof.
  intro Hf. induction l as [|x l IH]; simpl; [reflexivity|].
  rewrite Hf. destruct (Stock.id x =? k); [reflexivity | exact IH].
Qed.

Lemma item_of_ledger_write s i nq d j act p rf k :
  item_of (ledger_write s i nq d j act p rf) k =
  option_map (fun x => if Stock.id x =? i then Stock.set_quantity nq x else x)
             (item_of s k).
Proof.
  unfold item_of. rewrite ledger_write_stock.
  apply find_map_same_id. intro x. now destruct (Stock.id x =? i).
Qed.

(** The quantities after the write of a ledger operation on item [i],
    found as [it], that sets it to [quantity it + d]. *)
Lemma quantity_of_ledger_write s i it d j act p rf k :
  item_of s i = Some it ->
  quantity_of (ledger_write s i (Stock.quantity it + d) d j act p rf) k =
  if k =? i then option_map (Z.add d) (quantity_of s k)
  else quantity_of s k.
Proof.
  intro Hit. unfold quantity_of. rewrite item_of_ledger_write.
  destruct (Z.eqb_spec k i) as [->|E].
  - rewrite Hit. simpl.
    destruct (item_of_some _ _ Hit) as [_ ->]. rewrite Z.eqb_refl. simpl.
    f_equal. lia.
  - destruct (item_of s k) as [x|] eqn:Ex; [|reflexivity]. simpl.
    destruct (item_of_some _ _ Ex) as [_ Hid].
    destruct (Z.eqb_spec (Stock.id x) i); [congruence | reflexivity].
Qed.

(** What a served ledger request writes: one row at the end of the log,
    about the target item, and the row's change added to that item's
    quantity, all other quantities as they were. *)
Lemma ledger_step r s :
  is_ledger_request r = true -> fst (serve r s) = true ->
  exists row,
    transactions (handle r s) = transactions s ++ [row] /\
    target r s = Some (Tx.item_id row) /\
    forall k,
      quantity_of (handle r s) k =
      if k =? Tx.item_id row
      then option_map (Z.add (Tx.change_qty row)) (quantity_of s k)
      else quantity_of s k.
Proof.
  unfold handle, serve, target.
  destruct r as [a n q m p su ro | a i q j | a i q | a t];
    [discriminate | | |]; intros _.
  - destruct (checkout_spec a i q j s); simpl; try discriminate.
    intros _. eexists. split; [reflexivity|].
    split; [reflexivity|]. simpl. intro k.
    replace (Stock.quantity it - get0 q)
      with (Stock.quantity it + - get0 q) by lia.
    now apply quantity_of_ledger_write.
  - destruct (receive_spec a i q s); simpl; try discriminate.
    intros _. eexists. split; [reflexivity|].
    split; [reflexivity|]. simpl. intro k.
    now apply quantity_of_ledger_write.
  - destruct (reverse_transaction_spec a t s) as
      [| | | | | | |tx it Ha Ht Htx Hact Hrev Hit Hq];
      simpl; try discriminate.
    intros _. eexists. split; [reflexivity|].
    split; [now rewrite Htx|]. simpl. intro k.
    replace (Stock.quantity it - Tx.change_qty tx)
      with (Stock.quantity it + - Tx.change_qty tx) by lia.
    now apply quantity_of_ledger_write.
Qed.

(** C2. After any history of requests on a fresh database, every item's
    quantity is the quantity it was created with plus the sum of
    [change_qty] over the transaction rows of that item; and every served
    checkout, receive and reverse appends exactly one row, about its
    target item, and adds that row's [change_qty] to the target's quantity
    while leaving all other quantities alone. *)
Theorem quantity_is_creation_plus_changes (h : list (request (F:=F))) :
  (forall it, In it (stock (exec h)) ->
     exists q0, creation_quantity h (Stock.id it) = Some q0 /\
                Stock.quantity it =
                q0 + sum_change (Stock.id it) (transactions (exec h))) /\
  (forall r,
     is_ledger_request r = true -> fst (serve r (exec h)) = true ->
     exists row,
       transactions (handle r (exec h)) = transactions (exec h) ++ [row] /\
       target r (exec h) = Some (Tx.item_id row) /\
       forall k,
         quantity_of (handle r (exec h)) k =
         if k =? Tx.item_id row
         then option_map (Z.add (Tx.change_qty row))
                         (quantity_of (exec h) k)
         else quantity_of (exec h) k).
Proof.
  split.
  - apply (accounted_run h (s:=empty_store) (c:=fun _ => None)).
    + apply consistent_empty.
    + intros it [].
  - intro r. apply ledger_step.
Qed.

End LedgerSum.

Lemma quantity_is_creation_plus_changes_witness :
  exists q0, creation_quantity scenario_reversed 1 = Some q0 /\
             97 = q0 + sum_change 1 (transactions (exec scenario_reversed)).
Proof.
  exact (proj1 (quantity_is_creation_plus_changes scenario_reversed)
           (Stock.mk 1 "A"%string 97 0 (rands 10) EmptyString 0)
           (or_introl eq_refl)).
Defined.

(* ------------------------------------------------------------------ *)
(** ** The job report *)

Section Usage.

Context {F : Type} `{Float F}.

Implicit Types (s : store F) (r : usage_row F) (l : list (usage_row F)).

(** *** Names in byte order *)

Lemma leb_iff (a b : string) :
  String.leb a b = true <-> a = b \/ OrderedTypeEx.String_as_OT.lt a b.
Proof.
  unfold String.leb.
  destruct (String.compare a b) eqn:E.
  - apply OrderedTypeEx.String_as_OT.cmp_eq in E. tauto.
  - apply OrderedTypeEx.String_as_OT.cmp_lt in E. tauto.
  - split; [discriminate|]. intros [Hab|Hab].
    + apply OrderedTypeEx.String_as_OT.cmp_eq in Hab.
      unfold OrderedTypeEx.String_as_OT.cmp in Hab. congruence.
    + apply OrderedTypeEx.String_as_OT.cmp_lt in Hab.
      unfold OrderedTypeEx.String_as_OT.cmp in Hab. congruence.
Qed.

Lemma leb_trans (a b c : string) :
  String.leb a b = true -> String.leb b c = true -> String.leb a c = true.
Proof.
  rewrite !leb_iff. intros [->|Hab] [->|Hbc]; auto.
  right. eapply OrderedTypeEx.String_as_OT.lt_trans; eassumption.
Qed.

Lemma insert_by_name_perm r l : Permutation (insert_by_name r l) (r :: l).
Proof.
  induction l as [|x l IH]; simpl; [reflexivity|].
  destruct (String.leb (r_name r) (r_name x)); [reflexivity|].
  rewrite IH. apply perm_swap.
Qed.

Lemma order_by_name_perm l : Permutation (order_by_name l) l.
Proof.
  induction l as [|x l IH]; simpl; [reflexivity|].
  rewrite insert_by_name_perm. now constructor.
Qed.

Lemma insert_by_name_sorted r l :
  StronglySorted name_le l -> StronglySorted name_le (insert_by_name r l).
Proof.
  induction 1 as [|x l Hl IH Hx]; simpl.
  - repeat constructor.
  - destruct (String.leb (r_name r) (r_name x)) eqn:E.
    + constructor; [now constructor|].
      constructor; [exact E|].
      eapply Forall_impl; [|exact Hx]. intros y Hy.
      unfold name_le in *. eapply leb_trans; eassumption.
    + constructor; [exact IH|].
      rewrite Forall_forall. intros y Hy.
      apply (Permutation_in _ (insert_by_name_perm r l)) in Hy.
      destruct Hy as [<-|Hy].
      * unfold name_le.
        destruct (String.leb_total (r_name r) (r_name x)); congruence.
      * rewrite Forall_forall in Hx. now apply Hx.
Qed.

Lemma order_by_name_sorted l : StronglySorted name_le (order_by_name l).
Proof.
  induction l as [|x l IH]; simpl; [constructor|].
  now apply insert_by_name_sorted.
Qed.

Lemma StronglySorted_map {A B} (R : A -> A -> Prop) (R' : B -> B -> Prop)
    (f : A -> B) (l : list A) :
  (forall a b, R a b -> R' (f a) (f b)) ->
  StronglySorted R l -> StronglySorted R' (map f l).
Proof.
  intros Hf. induction 1 as [|x l Hl IH Hx]; simpl; constructor.
  - exact IH.
  - apply Forall_map. eapply Forall_impl; [|exact Hx]. intro; apply Hf.
Qed.

(** *** The loop *)

Lemma usage_loop_eq rows : forall items total,
  usage_loop rows items total =
  (items ++ map usage_line rows,
   fold_left fadd (map (@u_line_total F) (map usage_line rows)) total).
Proof.
  induction rows as [|r rows IH]; simpl; intros items total.
  - now rewrite app_nil_r.
  - rewrite IH, <- app_assoc. reflexivity.
Qed.

Lemma job_usage_eq s job_no :
  _job_usage s job_no =
  (map usage_line (usage_select s job_no),
   round2 (fold_left fadd
             (map (@u_line_total F)
                  (map usage_line (usage_select s job_no)))
             fzero)).
Proof. unfold _job_usage. now rewrite usage_loop_eq. Qed.

(** *** The join *)

Lemma usage_where_iff job_no (t : Tx.row F) :
  usage_where job_no t = true <-> selected job_no t.
Proof.
  unfold usage_where, selected.
  rewrite andb_true_iff, orb_true_iff, !action_eqb_eq.
  destruct (Tx.job_no t) as [j|].
  - rewrite String.eqb_eq. split; intros [E A]; (split; [congruence|exact A]).
  - split; intros [E _]; discriminate.
Qed.

Lemma filter_no_key (l : list (Stock.row F)) k :
  ~ In k (map (@Stock.id F) l) ->
  filter (fun x => Stock.id x =? k) l = [].
Proof.
  induction l as [|y l IH]; simpl; intro Hk; [reflexivity|].
  destruct (Z.eqb_spec (Stock.id y) k); [tauto|]. apply IH. tauto.
Qed.

Lemma filter_unique_item (l : list (Stock.row F)) it :
  NoDup (map (@Stock.id F) l) -> In it l ->
  filter (fun x => Stock.id x =? Stock.id it) l = [it].
Proof.
  induction l as [|y l IH]; simpl; intros Hnd Hin; [contradiction|].
  inversion Hnd as [|? ? Hny Hnd']; subst.
  destruct Hin as [->|Hin].
  - rewrite Z.eqb_refl. f_equal. now apply filter_no_key.
  - destruct (Z.eqb_spec (Stock.id y) (Stock.id it)) as [E|_].
    + exfalso. apply Hny. rewrite E. now apply in_map.
    + now apply IH.
Qed.

(** The stock rows a transaction joins: exactly its item. *)
Lemma join_one s (t : Tx.row F) it :
  consistent s -> item_of s (Tx.item_id t) = Some it ->
  filter (fun x => Stock.id x =? Tx.item_id t) (stock s) = [it].
Proof.
  intros C Hit. destruct (item_of_some _ _ Hit) as [Hin <-].
  apply filter_unique_item; [apply C | exact Hin].
Qed.

Lemma tx_item s (t : Tx.row F) :
  consistent s -> In t (transactions s) ->
  exists it, item_of s (Tx.item_id t) = Some it.
Proof.
  intros C Hin. pose proof (tx_items_exist C) as C5.
  rewrite Forall_forall in C5. destruct (C5 t Hin) as [it [Hit Hid]].
  exists it. rewrite <- Hid. now apply item_of_in.
Qed.

Lemma usage_join_in s job_no r :
  consistent s ->
  (In r (usage_join s job_no) <->
   exists t it,
     In t (transactions s) /\ usage_where job_no t = true /\
     item_of s (Tx.item_id t) = Some it /\
     r = mkUsageRow (Tx.item_id t) (Stock.name it) (Tx.unit_price t)
                    (Tx.change_qty t)).
Proof.
  intro C. unfold usage_join. rewrite in_flat_map. split.
  - intros [t [Hin Hr]].
    destruct (usage_where job_no t) eqn:Ew; [|contradiction].
    destruct (@tx_item s t C Hin) as [it Hit].
    erewrite join_one in Hr by eassumption. destruct Hr as [<-|[]].
    exists t, it. repeat split; try assumption.
    destruct (item_of_some _ _ Hit) as [_ ->]. reflexivity.
  - intros [t [it [Hin [Ew [Hit ->]]]]].
    exists t. split; [assumption|]. rewrite Ew.
    erewrite join_one by eassumption. left.
    destruct (item_of_some _ _ Hit) as [_ ->]. reflexivity.
Qed.

(** *** The groups *)

Lemma in_group_true k r : in_group k r = true <-> group_key r = k.
Proof.
  unfold in_group. destruct (group_key_dec (group_key r) k); split;
    congruence.
Qed.

Lemma in_group_by l r :
  In r (group_by l) <->
  exists x, In x l /\
    r = mkUsageRow (r_item_id x) (r_name x) (r_unit_price x)
          (sumZ (map (@r_sum_change F) (filter (in_group (group_key x)) l))).
Proof.
  unfold group_by. rewrite in_map_iff. split.
  - intros [k [<- Hk]]. apply nodup_In, in_map_iff in Hk.
    destruct Hk as [x [<- Hx]]. exists x. split; [assumption|reflexivity].
  - intros [x [Hx ->]]. exists (group_key x). split; [reflexivity|].
    apply nodup_In. now apply in_map.
Qed.

Lemma group_by_keys l :
  map group_key (group_by l) = nodup group_key_dec (map group_key l).
Proof.
  unfold group_by. rewrite map_map. rewrite <- map_id. apply map_ext.
  intros [[i n] p]. reflexivity.
Qed.

(** The sum of a group of the join is the sum over the selected
    transactions of that item at that price. *)
Lemma group_sum s job_no it p :
  consistent s -> In it (stock s) ->
  sumZ (map (@r_sum_change F)
            (filter (in_group (Stock.id it, Stock.name it, p))
                    (usage_join s job_no))) =
  sumZ (map (@Tx.change_qty F)
            (filter (in_usage_group job_no (Stock.id it) p)
                    (transactions s))).
Proof.
  intros C Hit. unfold usage_join.
  assert (forall t, In t (transactions s) -> In t (transactions s)) as Hsub
    by auto.
  revert Hsub. generalize (transactions s) at 1 3 4. intro txs.
  induction txs as [|t txs IH]; intro Hsub; [reflexivity|].
  simpl. rewrite filter_app, map_app, sumZ_app.
  rewrite IH by (intros; apply Hsub; now right). clear IH.
  unfold in_usage_group at 2.
  destruct (usage_where job_no t) eqn:Ew; simpl.
  2:{ lia. }
  destruct (@tx_item s t C (Hsub t (or_introl eq_refl))) as [x Hx].
  erewrite join_one by eassumption. simpl.
  destruct (item_of_some _ _ Hx) as [Hxin Hxid].
  unfold in_group at 1.
  destruct (group_key_dec (group_key _) _) as [E|E]; simpl.
  - unfold group_key in E. simpl in E.
    injection E as E1 E2 E3.
    rewrite <- Hxid, E1, Z.eqb_refl.
    destruct (F_eq_dec (Tx.unit_price t) p); [simpl; lia | contradiction].
  - destruct (Z.eqb_spec (Tx.item_id t) (Stock.id it)) as [Ei|Ei];
      [|simpl; lia].
    destruct (F_eq_dec (Tx.unit_price t) p) as [Ep|Ep]; [|simpl; lia].
    exfalso. apply E. unfold group_key. simpl.
    assert (x = it) as ->.
    { pose proof (item_of_in _ C Hit) as E'.
      rewrite <- Ei in E'. congruence. }
    subst p. reflexivity.
Qed.

(** *** The report *)

(** Every selected transaction falls in a line of the report. *)
Lemma usage_covers s job_no (t : Tx.row F) :
  consistent s -> In t (transactions s) -> selected job_no t ->
  exists u, In u (fst (_job_usage s job_no)) /\
    u_item_id u = Tx.item_id t /\ u_unit_price u = Tx.unit_price t.
Proof.
  intros C Hin Hsel. rewrite job_usage_eq. simpl. unfold usage_select.
  apply usage_where_iff in Hsel.
  destruct (@tx_item s t C Hin) as [it Hit].
  eexists (usage_line (mkUsageRow (Tx.item_id t) (Stock.name it)
                                  (Tx.unit_price t) _)).
  split; [|split; [reflexivity | apply float_or0_id]].
  apply in_map.
  apply (Permutation_in _ (Permutation_sym (order_by_name_perm _))).
  apply in_group_by.
  eexists. split.
  - apply usage_join_in; [assumption|]. exists t, it. repeat split;
      eassumption.
  - reflexivity.
Qed.

(** Every line of the report is the group of some selected transaction. *)
Lemma usage_lines s job_no (u : usage_item F) :
  consistent s -> In u (fst (_job_usage s job_no)) ->
  (exists t, In t (transactions s) /\ selected job_no t /\
     Tx.item_id t = u_item_id u /\ Tx.unit_price t = u_unit_price u) /\
  (exists it, item_of s (u_item_id u) = Some it /\
     u_name u = Stock.name it) /\
  u_net_qty u =
    - sumZ (map (@Tx.change_qty F)
              (filter (in_usage_group job_no (u_item_id u) (u_unit_price u))
                      (transactions s))) /\
  u_line_total u = round2 (fmul_int (u_net_qty u) (u_unit_price u)).
Proof.
  intros C Hu. rewrite job_usage_eq in Hu. simpl in Hu.
  unfold usage_select in Hu.
  apply in_map_iff in Hu. destruct Hu as [r [<- Hr]].
  apply (Permutation_in _ (order_by_name_perm _)) in Hr.
  apply in_group_by in Hr. destruct Hr as [x [Hx ->]].
  apply usage_join_in in Hx; [|assumption].
  destruct Hx as [t [it [Hin [Hw [Hit ->]]]]].
  unfold usage_line. simpl. rewrite float_or0_id, int_or0_id.
  split; [|split; [|split]].
  - exists t. split; [assumption|].
    split; [now apply usage_where_iff|]. split; reflexivity.
  - exists it. split; [assumption | reflexivity].
  - f_equal. unfold group_key. simpl.
    destruct (item_of_some _ _ Hit) as [Hitin Hid].
    rewrite <- Hid. now apply group_sum.
  - reflexivity.
Qed.

(** C3. In a consistent database (every reachable one is, and so is one
    whose prices were edited) and for every job number, the report of
    [_job_usage] is built from exactly the transaction rows of that job
    whose action is checkout or reverse, grouped by item and price: every
    such row falls in a line with its item and its price, no two lines
    share item and price (so one item checked out at two prices gives two
    lines), and every line comes from at least one such row, carries the
    item's name, has [net_qty] the negated sum of [change_qty] over its
    group and [line_total = round(net_qty * unit_price, 2)]; the total is
    [round(sum of the line totals, 2)], summed in the order of the lines;
    and the lines are in ascending order of item name. *)
Theorem job_usage_report s job_no :
  consistent s ->
  let items := fst (_job_usage s job_no) in
  let total := snd (_job_usage s job_no) in
  (forall t, In t (transactions s) -> selected job_no t ->
     exists u, In u items /\
       u_item_id u = Tx.item_id t /\ u_unit_price u = Tx.unit_price t) /\
  NoDup (map (fun u => (u_item_id u, u_unit_price u)) items) /\
  (forall t1 t2,
     In t1 (transactions s) -> selected job_no t1 ->
     In t2 (transactions s) -> selected job_no t2 ->
     Tx.item_id t1 = Tx.item_id t2 ->
     Tx.unit_price t1 <> Tx.unit_price t2 ->
     exists u1 u2, In u1 items /\ In u2 items /\ u1 <> u2 /\
       u_item_id u1 = Tx.item_id t1 /\ u_unit_price u1 = Tx.unit_price t1 /\
       u_item_id u2 = Tx.item_id t2 /\ u_unit_price u2 = Tx.unit_price t2) /\
  (forall u, In u items ->
     (exists t, In t (transactions s) /\ selected job_no t /\
        Tx.item_id t = u_item_id u /\ Tx.unit_price t = u_unit_price u) /\
     (exists it, item_of s (u_item_id u) = Some it /\
        u_name u = Stock.name it) /\
     u_net_qty u =
       - sumZ (map (@Tx.change_qty F)
                 (filter (in_usage_group job_no (u_item_id u)
                            (u_unit_price u))
                         (transactions s))) /\
     u_line_total u = round2 (fmul_int (u_net_qty u) (u_unit_price u))) /\
  total = round2 (fold_left fadd (map (@u_line_total F) items) fzero) /\
  StronglySorted
    (fun a b => String.leb (u_name a) (u_name b) = true) items.
Proof.
  intros C items total.
  assert (forall t, In t (transactions s) -> selected job_no t ->
     exists u, In u items /\
       u_item_id u = Tx.item_id t /\ u_unit_price u = Tx.unit_price t)
    as Hcover.
  { intros t Hin Hsel. now apply usage_covers. }
  split; [exact Hcover|].
  split; [|split; [|split; [|split]]].
  - (* one line per item and price *)
    subst items. rewrite job_usage_eq. simpl. unfold usage_select.
    set (J := usage_join s job_no).
    rewrite map_map.
    apply (Permutation_NoDup
             (Permutation_sym
                (Permutation_map _ (order_by_name_perm (group_by J))))).
    rewrite (map_ext _ (fun r => (fst (fst (group_key r)),
                                  snd (group_key r)))).
    2:{ intro r. simpl. now rewrite float_or0_id. }
    rewrite <- (map_map group_key
                  (fun k : Z * string * F => (fst (fst k), snd k))).
    rewrite group_by_keys.
    apply NoDup_map_NoDup_ForallPairs; [|apply NoDup_nodup].
    intros k1 k2 H1 H2 E.
    apply nodup_In, in_map_iff in H1. destruct H1 as [r1 [<- H1]].
    apply nodup_In, in_map_iff in H2. destruct H2 as [r2 [<- H2]].
    apply usage_join_in in H1; [|assumption].
    apply usage_join_in in H2; [|assumption].
    destruct H1 as [t1 [i1 [_ [_ [Hi1 ->]]]]].
    destruct H2 as [t2 [i2 [_ [_ [Hi2 ->]]]]].
    unfold group_key in *. simpl in *. injection E as E1 E2.
    rewrite E1 in Hi1. assert (i1 = i2) by congruence. subst.
    congruence.
  - (* two prices, two lines *)
    intros t1 t2 Hin1 Hs1 Hin2 Hs2 Ei Ep.
    destruct (Hcover t1 Hin1 Hs1) as [u1 [Hu1 [Hi1 Hp1]]].
    destruct (Hcover t2 Hin2 Hs2) as [u2 [Hu2 [Hi2 Hp2]]].
    exists u1, u2. repeat split; try assumption.
    intros ->. congruence.
  - (* what a line holds *)
    intros u Hu. now apply usage_lines.
  - subst items total. rewrite job_usage_eq. reflexivity.
  - subst items. rewrite job_usage_eq. simpl.
    apply StronglySorted_map with (R := name_le).
    + intros a b Hab. exact Hab.
    + apply order_by_name_sorted.
Qed.

End Usage.

Lemma consistent_repriced_again : consistent repriced_again.
Proof.
  apply (consistent_handle
           (POST_checkout true (Some 1) (Some 2) (Some "J1"%string))
           (s := repriced)).
  split; simpl; try lia; repeat constructor; simpl; try lia; try tauto;
    try congruence.
  - eexists. split; [left; reflexivity | reflexivity].
  - match goal with Hk : _ = Some _ |- _ => discriminate Hk end.
  - match goal with Hk : _ = Some _ |- _ => discriminate Hk end.
  - match goal with Hk : _ = Some _ |- _ => discriminate Hk end.
Qed.

(** One item, one job, two prices: two lines. *)
Lemma job_usage_report_witness :
  exists u1 u2,
    In u1 (fst (_job_usage repriced_again "J1"%string)) /\
    In u2 (fst (_job_usage repriced_again "J1"%string)) /\
    u1 <> u2 /\
    u_item_id u1 = 1 /\ u_unit_price u1 = 100000 /\
    u_item_id u2 = 1 /\ u_unit_price u2 = 125000.
Proof.
  exact (proj1 (proj2 (proj2
           (job_usage_report "J1"%string consistent_repriced_again)))
           (Tx.mk 1 1 (-5) (Some "J1"%string) Action.checkout 100000 None 0)
           (Tx.mk 2 1 (-2) (Some "J1"%string) Action.checkout 125000 None 0)
           (or_introl eq_refl) (conj eq_refl (or_introl eq_refl))
           (or_intror (or_introl eq_refl))
           (conj eq_refl (or_introl eq_refl))
           eq_refl ltac:(discriminate)).
Defined.

(* ------------------------------------------------------------------ *)
(** ** Reversal *)

Section Reversal.

Context {F : Type} `{Float F}.

Implicit Types (s : store F).

Lemma find_app_some {A} (p : A -> bool) (l1 l2 : list A) x :
  find p l1 = Some x -> find p (l1 ++ l2) = Some x.
Proof.
  induction l1 as [|y l1 IH]; simpl; [discriminate|].
  destruct (p y); [trivial | exact IH].
Qed.

Lemma find_app_none {A} (p : A -> bool) (l1 l2 : list A) :
  find p l1 = None -> find p (l1 ++ l2) = find p l2.
Proof.
  induction l1 as [|y l1 IH]; simpl; [reflexivity|].
  destruct (p y); [discriminate | exact IH].
Qed.

Lemma tx_of_ledger_write s i nq d j act p rf k tx :
  tx_of s k = Some tx ->
  tx_of (ledger_write s i nq d j act p rf) k = Some tx.
Proof.
  unfold tx_of. rewrite ledger_write_transactions. apply find_app_some.
Qed.

(** The row a ledger write appends is the one found under the next id. *)
Lemma tx_of_appended s i nq d j act p rf :
  consistent s ->
  tx_of (ledger_write s i nq d j act p rf) (transactions_seq s + 1) =
  Some (Tx.mk (transactions_seq s + 1) i d j act p rf 0).
Proof.
  intro C. unfold tx_of. rewrite ledger_write_transactions.
  rewrite find_app_none; [simpl; now rewrite Z.eqb_refl|].
  apply find_none_iff. intros [t [Hin Ht]].
  pose proof (tx_ids_issued C) as C4. rewrite Forall_forall in C4.
  specialize (C4 t Hin). lia.
Qed.

(** In a consistent log the double-reverse query finds a row exactly when
    some row has [reversed_from] equal to the id. *)
Lemma reversal_exists_iff s k :
  consistent s ->
  (reversal_exists s k <->
   exists t, In t (transactions s) /\ Tx.reversed_from t = Some k).
Proof.
  intro C. unfold reversal_exists, reverses. split; intros [t [Hin Ht]];
    exists t; (split; [assumption|]).
  - apply andb_true_iff in Ht. destruct Ht as [_ Ht].
    destruct (Tx.reversed_from t) as [k'|]; [|discriminate].
    f_equal. lia.
  - pose proof (reversals_linked C) as C6. rewrite Forall_forall in C6.
    destruct (C6 t Hin k Ht) as [-> _]. rewrite Ht. simpl. apply Z.eqb_refl.
Qed.

Lemma tx_of_positive s k tx : consistent s -> tx_of s k = Some tx -> 0 < k.
Proof.
  intros C E. apply tx_of_some in E. destruct E as [Hin <-].
  pose proof (tx_ids_issued C) as C4. rewrite Forall_forall in C4.
  specialize (C4 tx Hin). lia.
Qed.

(** A served reversal cannot be served again. *)
Lemma reverse_twice s j_tx resp s' :
  reverse_transaction true j_tx s = (Ok resp, s') ->
  fst (reverse_transaction true j_tx s') =
  Err transaction_already_reversed.
Proof.
  destruct (reverse_transaction_spec true j_tx s) as
    [| | | | | | |tx it _ Ht Htx Hact Hrev Hit Hq]; try discriminate.
  intros [= <- <-]. simpl in *.
  assert (reversal_exists
            (ledger_write s (Tx.item_id tx)
               (Stock.quantity it - Tx.change_qty tx) (- Tx.change_qty tx)
               (Tx.job_no tx) Action.reverse (Tx.unit_price tx)
               (Some (get0 j_tx))) (get0 j_tx)) as Hnow.
  { eexists. rewrite ledger_write_transactions. split.
    - apply in_or_app. right. left. reflexivity.
    - unfold reverses. simpl. apply Z.eqb_refl. }
  pose proof (@tx_of_ledger_write s (Tx.item_id tx)
                (Stock.quantity it - Tx.change_qty tx) (- Tx.change_qty tx)
                (Tx.job_no tx) Action.reverse (Tx.unit_price tx)
                (Some (get0 j_tx)) (get0 j_tx) tx Htx) as Htx'.
  destruct (reverse_transaction_spec true j_tx
              (ledger_write s (Tx.item_id tx)
                 (Stock.quantity it - Tx.change_qty tx)
                 (- Tx.change_qty tx) (Tx.job_no tx) Action.reverse
                 (Tx.unit_price tx) (Some (get0 j_tx))));
    simpl in *; try reflexivity; try discriminate; try lia;
    try congruence; try contradiction.
Qed.

(** C4 (amended). In a consistent database, [reverse] of a transaction id
    (an absent id counting as 0)
    fails with InvalidInput exactly when the id is not positive, with
    NotFound exactly when the id is positive and no transaction has it, and
    with InvalidReversal exactly when the transaction exists and, tested in
    this order, it is itself a reversal, or some transaction already has
    [reversed_from] equal to the id, or taking the change back would leave
    the item's quantity negative.  These three kinds are the only failures,
    every failure leaves the database as it was, and after a served
    reversal the same request fails as already reversed. *)
Theorem reverse_failures s j_tx :
  consistent s ->
  let tx_id := get0 j_tx in
  let out := reverse_transaction true j_tx s in
  (fails_with InvalidInput (fst out) <-> tx_id <= 0) /\
  (fails_with NotFound (fst out) <-> 0 < tx_id /\ tx_of s tx_id = None) /\
  (fails_with InvalidReversal (fst out) <->
   exists tx, tx_of s tx_id = Some tx /\
     (Tx.action tx = Action.reverse \/
      (exists t, In t (transactions s) /\ Tx.reversed_from t = Some tx_id) \/
      (exists it, item_of s (Tx.item_id tx) = Some it /\
                  Stock.quantity it - Tx.change_qty tx < 0))) /\
  (fst out = Err cannot_reverse_a_reverse <->
   exists tx, tx_of s tx_id = Some tx /\ Tx.action tx = Action.reverse) /\
  (fst out = Err transaction_already_reversed <->
   exists tx, tx_of s tx_id = Some tx /\ Tx.action tx <> Action.reverse /\
     exists t, In t (transactions s) /\ Tx.reversed_from t = Some tx_id) /\
  (fst out = Err reversal_would_make_stock_negative <->
   exists tx it, tx_of s tx_id = Some tx /\
     Tx.action tx <> Action.reverse /\
     (~ exists t, In t (transactions s) /\
                  Tx.reversed_from t = Some tx_id) /\
     item_of s (Tx.item_id tx) = Some it /\
     Stock.quantity it - Tx.change_qty tx < 0) /\
  (forall e, fst out = Err e ->
     (kind e = InvalidInput \/ kind e = NotFound \/
      kind e = InvalidReversal) /\ snd out = s) /\
  (forall resp, fst out = Ok resp ->
     fst (reverse_transaction true j_tx (snd out)) =
     Err transaction_already_reversed).
Proof.
  intros C tx_id out. subst tx_id.
  pose proof (reversal_exists_iff (get0 j_tx) C) as Hrx.
  assert (forall tx, tx_of s (get0 j_tx) = Some tx -> 0 < (get0 j_tx)) as Hpos.
  { intros tx E. eapply tx_of_positive; eassumption. }
  assert (forall tx, tx_of s (get0 j_tx) = Some tx ->
            item_of s (Tx.item_id tx) <> None) as Hitem.
  { intros tx E E'. apply tx_of_some in E. destruct E as [Hin _].
    destruct (tx_item _ C Hin) as [it Hit]. congruence. }
  assert (forall resp, fst out = Ok resp ->
     fst (reverse_transaction true j_tx (snd out)) =
     Err transaction_already_reversed) as Htwice.
  { intros resp E. eapply reverse_twice with (resp := resp).
    subst out. rewrite <- E. apply surjective_pairing. }
  split; [|split; [|split; [|split; [|split; [|split; [|split]]]]]];
    try exact Htwice; clear Htwice; subst out;
    destruct (reverse_transaction_spec true j_tx s) as
      [Ha|Ha Ht|Ha Ht Htx|tx Ha Ht Htx Hact|tx Ha Ht Htx Hact Hrev
      |tx Ha Ht Htx Hact Hrev Hit|tx it Ha Ht Htx Hact Hrev Hit Hq
      |tx it Ha Ht Htx Hact Hrev Hit Hq];
    simpl in *; try discriminate Ha;
    try (rewrite Hrx in Hrev);
    try (exfalso; eapply Hitem; eassumption);
    try (pose proof (Hpos _ Htx));
    try (split; intros; break_hyps; try close_case);
    try (intros; break_hyps; simpl; try close_case).
  all: try (exfalso;
            match goal with
            | Hx : tx_of _ _ = Some _ |- _ => pose proof (Hpos _ Hx)
            end; lia).
  all: try (exfalso; apply Hrev; eauto; fail).
  all: try (exfalso; lia).
  match goal with
  | Hn : ~ (exists _, _) |- _ => exfalso; apply Hn; eauto
  end.
Qed.

(** Right after a checkout or a receipt wrote its row, the reversal of
    that row is served and puts the quantity back. *)
Lemma undo_ledger_write s i it d j act p :
  consistent s -> quantities_nonneg s ->
  item_of s i = Some it -> act <> Action.reverse ->
  exists resp2 s2 back,
    reverse_transaction true (Some (transactions_seq s + 1))
      (ledger_write s i (Stock.quantity it + d) d j act p None)
    = (Ok resp2, s2) /\
    quantity_of s2 i = quantity_of s i /\
    transactions s2 =
      transactions (ledger_write s i (Stock.quantity it + d) d j act p None)
      ++ [back] /\
    Tx.change_qty back = - d /\
    Tx.reversed_from back = Some (transactions_seq s + 1).
Proof.
  intros C N Hit Hact.
  set (s1 := ledger_write s i (Stock.quantity it + d) d j act p None).
  assert (consistent s1) as C1.
  { apply consistent_ledger_write; [assumption | | discriminate].
    eapply item_of_exists; eassumption. }
  pose proof (tx_of_appended i (Stock.quantity it + d) d j act p None C)
    as Hrow.
  fold s1 in Hrow.
  pose proof (item_of_ledger_write s i (Stock.quantity it + d) d j act p
                None i) as Hit1.
  fold s1 in Hit1. rewrite Hit in Hit1. simpl in Hit1.
  destruct (item_of_some _ _ Hit) as [_ Hid].
  rewrite Hid, Z.eqb_refl in Hit1.
  pose proof (nonneg_item _ N Hit) as Hq0.
  pose proof (transactions_seq_nonneg C) as Hseq.
  destruct (reverse_transaction_spec true (Some (transactions_seq s + 1))
              s1) as
    [Ha|Ha Ht|Ha Ht Htx|tx Ha Ht Htx Ha'|tx Ha Ht Htx Ha' Hrev
    |tx Ha Ht Htx Ha' Hrev Hi|tx it' Ha Ht Htx Ha' Hrev Hi Hq
    |tx it' Ha Ht Htx Ha' Hrev Hi Hq];
    simpl in *; try discriminate Ha; try lia; try congruence;
    try (rewrite Hrow in Htx; injection Htx as <-; simpl in *).
  - contradiction.
  - exfalso. apply (reversal_exists_iff _ C1) in Hrev.
    destruct Hrev as [t [Hin Hrf]].
    pose proof (reversals_linked C1) as C6. rewrite Forall_forall in C6.
    destruct (C6 t Hin _ Hrf) as [_ Hk].
    pose proof (tx_ids_issued C1) as C4. rewrite Forall_forall in C4.
    specialize (C4 t Hin). subst s1.
    rewrite ledger_write_transactions_seq in C4. lia.
  - congruence.
  - rewrite Hit1 in Hi. injection Hi as <-. simpl in Hq. lia.
  - rewrite Hit1 in Hi. injection Hi as <-. simpl.
    do 3 eexists. split; [reflexivity|].
    split; [|split; [reflexivity|split; reflexivity]].
    replace (Stock.quantity it + d - d)
      with (Stock.quantity (Stock.set_quantity (Stock.quantity it + d) it)
            + - d) by (simpl; lia).
    rewrite quantity_of_ledger_write by exact Hit1.
    rewrite Z.eqb_refl. unfold quantity_of. rewrite Hit1, Hit. simpl.
    f_equal. lia.
Qed.

(** C5. In a reachable database and for every [q > 0]: a served checkout
    of [q] appends a row of change [-q]; the reversal of that row, asked
    next, is served, brings the item's quantity back to what it was before
    the checkout, and its own row carries the negated change and the link
    to the row it reverses.  The same holds for a served receipt, whose row
    has change [+q]. *)
Theorem reverse_restores_quantity s i q :
  reachable s -> 0 < q ->
  (forall j resp s1,
     checkout true (Some i) (Some q) j s = (Ok resp, s1) ->
     exists row resp2 s2 back,
       transactions s1 = transactions s ++ [row] /\
       Tx.change_qty row = - q /\
       reverse_transaction true (Some (Tx.id row)) s1 = (Ok resp2, s2) /\
       quantity_of s2 i = quantity_of s i /\
       transactions s2 = transactions s1 ++ [back] /\
       Tx.change_qty back = - Tx.change_qty row /\
       Tx.reversed_from back = Some (Tx.id row)) /\
  (forall resp s1,
     receive true (Some i) (Some q) s = (Ok resp, s1) ->
     exists row resp2 s2 back,
       transactions s1 = transactions s ++ [row] /\
       Tx.change_qty row = q /\
       reverse_transaction true (Some (Tx.id row)) s1 = (Ok resp2, s2) /\
       quantity_of s2 i = quantity_of s i /\
       transactions s2 = transactions s1 ++ [back] /\
       Tx.change_qty back = - Tx.change_qty row /\
       Tx.reversed_from back = Some (Tx.id row)).
Proof.
  intros R Hq. pose proof (reachable_consistent R) as C.
  pose proof (reachable_nonneg R) as N.
  split.
  - intros j resp s1.
    destruct (checkout_spec true (Some i) (Some q) j s) as
      [| | | | |it _ Hi _ Hj Hit Hle]; try discriminate.
    intros [= <- <-]. simpl in *.
    replace (Stock.quantity it - q) with (Stock.quantity it + - q) by lia.
    destruct (@undo_ledger_write s i it (- q)
                (Some (strip (str_or_empty j))) Action.checkout
                (Stock.unit_price it) C N Hit)
      as [resp2 [s2 [back [Hrev [Hqty [Hlog [Hch Hrf]]]]]]];
      [discriminate|].
    eexists. exists resp2, s2, back.
    split; [reflexivity|]. simpl.
    repeat split; assumption.
  - intros resp s1.
    destruct (receive_spec true (Some i) (Some q) s) as
      [| | |it _ Hi _ Hit]; try discriminate.
    intros [= <- <-]. simpl in *.
    destruct (@undo_ledger_write s i it q None Action.receive
                (Stock.unit_price it) C N Hit)
      as [resp2 [s2 [back [Hrev [Hqty [Hlog [Hch Hrf]]]]]]];
      [discriminate|].
    eexists. exists resp2, s2, back.
    split; [reflexivity|]. simpl.
    repeat split; assumption.
Qed.

End Reversal.

(** The reversal of a transaction that does not exist because its id is
    not positive is an InvalidInput failure, not a NotFound one. *)
Lemma reverse_nonpositive_id_counterexample :
  tx_of (@empty_store Z) 0 = None /\
  fst (reverse_transaction true (Some 0) (@empty_store Z)) =
    Err transaction_id_must_be_positive /\
  kind transaction_id_must_be_positive = InvalidInput /\
  ~ fails_with NotFound
      (fst (reverse_transaction true (Some 0) (@empty_store Z))).
Proof.
  repeat split. intros [e [E K]]. vm_compute in E.
  injection E as <-. discriminate K.
Qed.

Lemma reverse_failures_witness :
  fst (reverse_transaction true (Some 1)
         (snd (reverse_transaction true (Some 1) (exec scenario)))) =
  Err transaction_already_reversed.
Proof.
  exact (proj2 (proj2 (proj2 (proj2 (proj2 (proj2 (proj2
           (reverse_failures (Some 1)
              (reachable_consistent (reachable_exec scenario)))))))))
           (mkReverseResponse 1 97 1) eq_refl).
Defined.

Lemma reverse_restores_quantity_witness :
  exists row resp2 s2 back,
    transactions (exec scenario_first) =
      transactions (exec [scenario_item]) ++ [row] /\
    Tx.change_qty row = - 5 /\
    reverse_transaction true (Some (Tx.id row)) (exec scenario_first)
    = (Ok resp2, s2) /\
    quantity_of s2 1 = quantity_of (exec [scenario_item]) 1 /\
    transactions s2 = transactions (exec scenario_first) ++ [back] /\
    Tx.change_qty back = - Tx.change_qty row /\
    Tx.reversed_from back = Some (Tx.id row).
Proof.
  exact (proj1 (reverse_restores_quantity 1 (q:=5)
                  (reachable_exec [scenario_item]) eq_refl)
           (Some "J1"%string) _ _ eq_refl).
Defined.

(* ------------------------------------------------------------------ *)
(** ** Prices at the time of the transaction *)

Section Prices.

Context {F : Type} `{Float F}.

Implicit Types (s : store F).

(** C6. In any database, whatever prices its stock rows carry: a
    checkout whose inputs are valid for an item that holds enough, and a
    receipt whose inputs are valid for an item that exists, is served and
    appends a row whose [unit_price] is the price the item has at that
    moment (and answers with it); a reversal of an existing transaction
    that passes the tests of [reverse] is served and appends a row whose
    [unit_price] is the one of the reversed transaction, whatever the item
    costs now.  These are the only rows such requests write: every served
    checkout, receipt and reversal has appended exactly such a row; so two
    databases with the same log but different stock prices give reversal
    rows of the same price. *)
Theorem price_snapshots s :
  (forall i q j it,
     0 < get0 i -> 0 < get0 q ->
     strip (str_or_empty j) <> EmptyString ->
     item_of s (get0 i) = Some it -> get0 q <= Stock.quantity it ->
     exists resp s' row,
       checkout true i q j s = (Ok resp, s') /\
       transactions s' = transactions s ++ [row] /\
       Tx.action row = Action.checkout /\
       Tx.unit_price row = Stock.unit_price it /\
       co_unit_price_at_time resp = Stock.unit_price it) /\
  (forall i q it,
     0 < get0 i -> 0 < get0 q -> item_of s (get0 i) = Some it ->
     exists resp s' row,
       receive true i q s = (Ok resp, s') /\
       transactions s' = transactions s ++ [row] /\
       Tx.action row = Action.receive /\
       Tx.unit_price row = Stock.unit_price it /\
       re_unit_price_at_time resp = Stock.unit_price it) /\
  (forall t tx it,
     0 < get0 t -> tx_of s (get0 t) = Some tx ->
     Tx.action tx <> Action.reverse ->
     ~ reversal_exists s (get0 t) ->
     item_of s (Tx.item_id tx) = Some it ->
     0 <= Stock.quantity it - Tx.change_qty tx ->
     exists resp s' row,
       reverse_transaction true t s = (Ok resp, s') /\
       transactions s' = transactions s ++ [row] /\
       Tx.action row = Action.reverse /\
       Tx.reversed_from row = Some (get0 t) /\
       Tx.unit_price row = Tx.unit_price tx) /\
  (forall a i q j resp s',
     checkout a i q j s = (Ok resp, s') ->
     exists it row,
       item_of s (get0 i) = Some it /\
       transactions s' = transactions s ++ [row] /\
       Tx.action row = Action.checkout /\
       Tx.unit_price row = Stock.unit_price it /\
       co_unit_price_at_time resp = Stock.unit_price it) /\
  (forall a i q resp s',
     receive a i q s = (Ok resp, s') ->
     exists it row,
       item_of s (get0 i) = Some it /\
       transactions s' = transactions s ++ [row] /\
       Tx.action row = Action.receive /\
       Tx.unit_price row = Stock.unit_price it /\
       re_unit_price_at_time resp = Stock.unit_price it) /\
  (forall a t resp s',
     reverse_transaction a t s = (Ok resp, s') ->
     exists tx row,
       tx_of s (get0 t) = Some tx /\
       transactions s' = transactions s ++ [row] /\
       Tx.action row = Action.reverse /\
       Tx.reversed_from row = Some (get0 t) /\
       Tx.unit_price row = Tx.unit_price tx) /\
  (forall a t resp1 s1 s2 resp2 s2',
     transactions s2 = transactions s ->
     reverse_transaction a t s = (Ok resp1, s1) ->
     reverse_transaction a t s2 = (Ok resp2, s2') ->
     map (@Tx.unit_price F) (transactions s2') =
     map (@Tx.unit_price F) (transactions s1)).
Proof.
  split; [|split; [|split; [|split; [|split; [|split]]]]].
  - intros i q j it Hi Hq Hj Hit Hle.
    destruct (checkout_spec true i q j s) as
      [Ha|Ha Hn|Ha _ _ Hj'|Ha _ _ _ Hit'|it' Ha _ _ _ Hit' Hlt
      |it' Ha _ _ _ Hit' _]; try discriminate Ha; try lia;
      try contradiction; try congruence.
    + assert (it' = it) by congruence. subst it'. lia.
    + assert (it' = it) by congruence. subst it'.
      do 3 eexists. split; [reflexivity|].
      rewrite ledger_write_transactions. repeat split.
  - intros i q it Hi Hq Hit.
    destruct (receive_spec true i q s) as
      [Ha|Ha Hn|Ha _ _ Hit'|it' Ha _ _ Hit'];
      try discriminate Ha; try lia; try congruence.
    assert (it' = it) by congruence. subst it'.
    do 3 eexists. split; [reflexivity|].
    rewrite ledger_write_transactions. repeat split.
  - intros t tx it Ht Htx Hact Hrev Hit Hq.
    destruct (reverse_transaction_spec true t s) as
      [Ha|Ha Hn|Ha _ Htx'|tx' Ha _ Htx' Hact'|tx' Ha _ Htx' _ Hrev'
      |tx' Ha _ Htx' _ _ Hit'|tx' it' Ha _ Htx' _ _ Hit' Hneg
      |tx' it' Ha _ Htx' _ _ Hit' _];
      try discriminate Ha; try lia; try congruence; try contradiction.
    + assert (tx' = tx) by congruence. subst tx'.
      assert (it' = it) by congruence. subst it'. lia.
    + assert (tx' = tx) by congruence. subst tx'.
      do 3 eexists. split; [reflexivity|].
      rewrite ledger_write_transactions. repeat split.
  - intros a i q j resp s'.
    destruct (checkout_spec a i q j s); try discriminate.
    intros [= <- <-]. do 2 eexists. split; [eassumption|].
    rewrite ledger_write_transactions. repeat split.
  - intros a i q resp s'.
    destruct (receive_spec a i q s); try discriminate.
    intros [= <- <-]. do 2 eexists. split; [eassumption|].
    rewrite ledger_write_transactions. repeat split.
  - intros a t resp s'.
    destruct (reverse_transaction_spec a t s); try discriminate.
    intros [= <- <-]. do 2 eexists. split; [eassumption|].
    rewrite ledger_write_transactions. repeat split.
  - intros a t resp1 s1 s2 resp2 s2' Hlog.
    destruct (reverse_transaction_spec a t s) as
      [| | | | | | |tx it _ _ Htx _ _ _ _]; try discriminate.
    intros [= <- <-].
    destruct (reverse_transaction_spec a t s2) as
      [| | | | | | |tx2 it2 _ _ Htx2 _ _ _ _]; try discriminate.
    intros [= <- <-].
    unfold tx_of in Htx2. rewrite Hlog in Htx2. fold (tx_of s (get0 t)) in Htx2.
    assert (tx2 = tx) by congruence. subst tx2.
    rewrite !ledger_write_transactions, Hlog, !map_app. reflexivity.
Qed.

End Prices.

Lemma no_reversal_in_repriced : ~ reversal_exists repriced 1.
Proof.
  intros [t [[<-|[]] Hr]]. discriminate Hr.
Qed.

(** A checkout and a receipt on the scenario's item, at 10.00, and the
    reversal in [repriced], where the item has since gone to 12.50. *)
Lemma price_snapshots_witness :
  (exists resp s' row,
     checkout true (Some 1) (Some 5) (Some "J1"%string)
              (exec [scenario_item]) = (Ok resp, s') /\
     transactions s' = transactions (exec [scenario_item]) ++ [row] /\
     Tx.action row = Action.checkout /\
     Tx.unit_price row = rands 10 /\
     co_unit_price_at_time resp = rands 10) /\
  (exists resp s' row,
     receive true (Some 1) (Some 5) (exec [scenario_item])
     = (Ok resp, s') /\
     transactions s' = transactions (exec [scenario_item]) ++ [row] /\
     Tx.action row = Action.receive /\
     Tx.unit_price row = rands 10 /\
     re_unit_price_at_time resp = rands 10) /\
  (exists resp s' row,
     reverse_transaction true (Some 1) repriced = (Ok resp, s') /\
     transactions s' = transactions repriced ++ [row] /\
     Tx.action row = Action.reverse /\
     Tx.reversed_from row = Some 1 /\
     Tx.unit_price row = rands 10) /\
  (exists tx row,
     tx_of repriced 1 = Some tx /\
     transactions (snd (reverse_transaction true (Some 1) repriced)) =
       transactions repriced ++ [row] /\
     Tx.action row = Action.reverse /\
     Tx.reversed_from row = Some 1 /\
     Tx.unit_price row = Tx.unit_price tx).
Proof.
  split; [|split; [|split]].
  - exact (proj1 (price_snapshots (exec [scenario_item]))
             (Some 1) (Some 5) (Some "J1"%string)
             (Stock.mk 1 "A"%string 100 0 (rands 10) EmptyString 0)
             eq_refl eq_refl ltac:(discriminate) eq_refl
             ltac:(discriminate)).
  - exact (proj1 (proj2 (price_snapshots (exec [scenario_item])))
             (Some 1) (Some 5)
             (Stock.mk 1 "A"%string 100 0 (rands 10) EmptyString 0)
             eq_refl eq_refl eq_refl).
  - exact (proj1 (proj2 (proj2 (price_snapshots repriced)))
             (Some 1)
             (Tx.mk 1 1 (-5) (Some "J1"%string) Action.checkout (rands 10)
                    None 0)
             (Stock.mk 1 "A"%string 95 0 (rands 25 / 2) EmptyString 0)
             eq_refl eq_refl ltac:(discriminate) no_reversal_in_repriced
             eq_refl ltac:(discriminate)).
  - exact (proj1 (proj2 (proj2 (proj2 (proj2 (proj2
             (price_snapshots repriced))))))
             true (Some 1) _ _ eq_refl).
Defined.

(** In [repriced] the item costs 12.50 now; the reversal row still says
    10.00. *)
Example reversal_keeps_old_price :
  option_map (@Stock.unit_price Z) (item_of repriced 1) = Some 125000 /\
  map (@Tx.unit_price Z)
      (transactions (snd (reverse_transaction true (Some 1) repriced))) =
  [100000; 100000].
Proof. split; reflexivity. Qed.

(* ------------------------------------------------------------------ *)
(** ** Checkout *)

Section Checkout.

Context {F : Type} `{Float F}.

Implicit Types (s : store F).

(** C7 (amended). With an absent item id or quantity counting as 0 and an
    absent job number as empty, [checkout] fails with InvalidInput exactly
    when the item id or the quantity is not positive or the job number is
    empty once stripped of white space; with NotFound exactly when those inputs are
    valid and no item has the id; with InsufficientStock exactly when the
    inputs are valid, the item exists and the quantity asked exceeds what
    it holds; every failure leaves the database as it was.  Otherwise it
    sets the item's quantity to [quantity - qty] (to 0 when all of it is
    asked for), appends a checkout row of change [-qty] under the stripped
    job number at the item's price, and answers with the new quantity,
    [low_stock_alert = (new_quantity <= min_level)], the price, and
    [line_value = round(qty * unit_price, 2)]. *)
Theorem checkout_outcomes s j_item_id j_quantity j_job_no :
  let out := checkout true j_item_id j_quantity j_job_no s in
  let i := get0 j_item_id in
  let q := get0 j_quantity in
  let job := strip (str_or_empty j_job_no) in
  (fails_with InvalidInput (fst out) <->
   i <= 0 \/ q <= 0 \/ job = EmptyString) /\
  (fails_with NotFound (fst out) <->
   0 < i /\ 0 < q /\ job <> EmptyString /\ item_of s i = None) /\
  (fails_with InsufficientStock (fst out) <->
   0 < i /\ 0 < q /\ job <> EmptyString /\
   exists it, item_of s i = Some it /\ Stock.quantity it < q) /\
  (forall e, fst out = Err e -> snd out = s) /\
  (forall it,
     0 < i -> 0 < q -> job <> EmptyString ->
     item_of s i = Some it -> q <= Stock.quantity it ->
     fst out =
       Ok (mkCheckoutResponse
             (Stock.quantity it - q)
             (Stock.quantity it - q <=? Stock.min_level it)
             (Stock.unit_price it)
             (round2 (fmul_int q (Stock.unit_price it)))) /\
     quantity_of (snd out) i = Some (Stock.quantity it - q) /\
     (q = Stock.quantity it -> quantity_of (snd out) i = Some 0) /\
     transactions (snd out) =
       transactions s ++
       [Tx.mk (transactions_seq s + 1) i (- q) (Some job)
              Action.checkout (Stock.unit_price it) None 0]).
Proof.
  intros out i q job. subst out i q job.
  destruct (checkout_spec true j_item_id j_quantity j_job_no s) as
    [Ha|Ha Hn|Ha Hi Hq Hj|Ha Hi Hq Hj Hit|it Ha Hi Hq Hj Hit Hlt
    |it Ha Hi Hq Hj Hit Hle];
    simpl in *; try discriminate Ha.
  - repeat split; intros; break_hyps; try close_case.
  - repeat split; intros; break_hyps; try close_case.
  - repeat split; intros; break_hyps; try close_case.
  - repeat split; intros; break_hyps; try close_case.
  - split; [split; intros; break_hyps; try close_case|].
    split; [split; intros; break_hyps; try close_case|].
    split; [split; intros; break_hyps; try close_case|].
    split; [discriminate|].
    intros it' _ _ _ Hit' Hle'. assert (it' = it) by congruence. subst it'.
    assert (quantity_of
              (ledger_write s (get0 j_item_id)
                 (Stock.quantity it - get0 j_quantity) (- get0 j_quantity)
                 (Some (strip (str_or_empty j_job_no))) Action.checkout
                 (Stock.unit_price it) None)
              (get0 j_item_id) =
            Some (Stock.quantity it - get0 j_quantity)) as Hnew.
    { replace (Stock.quantity it - get0 j_quantity)
        with (Stock.quantity it + - get0 j_quantity) by lia.
      rewrite quantity_of_ledger_write by exact Hit.
      rewrite Z.eqb_refl. unfold quantity_of. rewrite Hit. simpl.
      f_equal. lia. }
    split; [reflexivity|]. split; [exact Hnew|].
    split; [|reflexivity].
    intros Hall. rewrite Hnew. f_equal. lia.
Qed.

End Checkout.

(** A checkout naming item id 0 with a positive quantity and a job number
    is an InvalidInput failure although neither the quantity nor the job
    number is at fault, and it is not a NotFound failure although no item
    has id 0; a job number of white space only is InvalidInput too. *)
Lemma checkout_item_id_counterexample :
  fst (checkout true (Some 0) (Some 1) (Some "J1"%string)
         (exec [scenario_item])) =
    Err item_id_and_quantity_must_be_positive /\
  kind item_id_and_quantity_must_be_positive = InvalidInput /\
  ~ (1 <= 0 \/ "J1"%string = EmptyString) /\
  item_of (exec [scenario_item]) 0 = None /\
  ~ fails_with NotFound
      (fst (checkout true (Some 0) (Some 1) (Some "J1"%string)
              (exec [scenario_item]))) /\
  fst (checkout true (Some 1) (Some 1) (Some " "%string)
         (exec [scenario_item])) = Err job_no_is_required.
Proof.
  repeat split.
  - intros [Hq|Hj]; [lia | discriminate].
  - intros [e [E K]]. vm_compute in E. injection E as <-. discriminate K.
Qed.

Lemma checkout_outcomes_witness :
  fst (checkout true (Some 1) (Some 100) (Some "J1"%string)
         (exec [scenario_item])) =
    Ok (mkCheckoutResponse 0 true (rands 10) (rands 1000)) /\
  quantity_of
    (snd (checkout true (Some 1) (Some 100) (Some "J1"%string)
            (exec [scenario_item]))) 1 = Some 0.
Proof.
  destruct (proj2 (proj2 (proj2 (proj2
              (checkout_outcomes (exec [scenario_item]) (Some 1)
                 (Some 100) (Some "J1"%string)))))
              (Stock.mk 1 "A"%string 100 0 (rands 10) EmptyString 0)
              eq_refl eq_refl ltac:(discriminate) eq_refl
              ltac:(discriminate))
    as [Hr [Hq _]].
  split; [exact Hr | exact Hq].
Defined.

(* ------------------------------------------------------------------ *)
(** ** Creating an item *)

Section Creation.

Context {F : Type} `{Float F}.

Implicit Types (s : store F).

(** C9 (amended). In a consistent database, [create] fails with
    InvalidInput exactly when the name is empty once stripped of white
    space or a numeric field is negative, an absent quantity, minimum level
    or reorder quantity counting as 0; it has no other failure and a
    failure writes nothing.  On success it appends one stock row with the
    fields given and an id no other item has, leaves the log alone, and
    answers with a confirmation that carries no id. *)
Theorem add_item_outcomes s n q m p su ro :
  consistent s ->
  let out := add_item true n q m p su ro s in
  let price := match p with Some x => x | None => fzero end in
  (fails_with InvalidInput (fst out) <->
   strip (str_or_empty n) = EmptyString \/ get0 q < 0 \/ get0 m < 0 \/
   fneg price = true \/ get0 ro < 0) /\
  (forall e, fst out = Err e -> kind e = InvalidInput /\ snd out = s) /\
  (forall resp, fst out = Ok resp ->
     resp = Item_added /\
     stock (snd out) =
       stock s ++
       [Stock.mk (stock_seq s + 1) (strip (str_or_empty n)) (get0 q)
          (get0 m) price (strip (str_or_empty su)) (get0 ro)] /\
     ~ In (stock_seq s + 1) (map (@Stock.id F) (stock s)) /\
     transactions (snd out) = transactions s) /\
  (forall resp,
     fst (add_item true n None None p su None s) = Ok resp ->
     exists it,
       stock (snd (add_item true n None None p su None s)) =
         stock s ++ [it] /\
       Stock.quantity it = 0 /\ Stock.min_level it = 0 /\
       Stock.reorder_qty it = 0).
Proof.
  intros C out price. subst out price.
  split; [|split; [|split]].
  - destruct (add_item_spec true n q m p su ro s) as
      [Ha|Ha Hn|Ha Hn Hneg|Ha Hn Hq Hm Hp Hro];
      simpl; try discriminate Ha;
      (split; intros; break_hyps; try close_case).
  - intros e. destruct (add_item_spec true n q m p su ro s);
      simpl; try discriminate; intros [= <-]; (split; reflexivity).
  - intros resp. destruct (add_item_spec true n q m p su ro s);
      simpl; try discriminate. intros [= <-].
    repeat split. intro Hin. apply in_map_iff in Hin.
    destruct Hin as [it [Hid Hin]].
    pose proof (item_ids_issued C) as C2. rewrite Forall_forall in C2.
    specialize (C2 it Hin). lia.
  - intros resp. destruct (add_item_spec true n None None p su None s);
      simpl; try discriminate. intros _.
    eexists. split; [reflexivity|]. repeat split.
Qed.

End Creation.

(** Two served creations give different ids and the same answer, so the
    answer does not tell the id; and a name of white space only is
    refused although it is not empty. *)
Lemma add_item_no_id_counterexample :
  ~ (exists id_of : add_item_response -> Z,
       forall (s s' : store Z) resp,
         add_item true (Some "A"%string) None None None None None s
         = (Ok resp, s') ->
         id_of resp = stock_seq s') /\
  fst (add_item true (Some " "%string) None None None None None
         (@empty_store Z)) = Err name_is_required.
Proof.
  split; [|reflexivity].
  intros [id_of Hid].
  pose proof (Hid empty_store _ _ eq_refl) as H1.
  pose proof (Hid (exec [scenario_item]) _ _ eq_refl) as H2.
  simpl in H1, H2. rewrite H1 in H2. discriminate H2.
Qed.

Lemma add_item_outcomes_witness :
  stock (snd (add_item true (Some "B"%string) None None None None None
                (exec [scenario_item]))) =
  stock (exec [scenario_item]) ++
  [Stock.mk 2 "B"%string 0 0 0 EmptyString 0].
Proof.
  exact (proj1 (proj2 (proj1 (proj2 (proj2
           (add_item_outcomes (Some "B"%string) None None None None None
              (reachable_consistent (reachable_exec [scenario_item])))))
           Item_added eq_refl))).
Defined.

(* ------------------------------------------------------------------ *)
(** ** When a job has no usage *)

Section NoUsage.

Context {F : Type} `{Float F}.

Implicit Types (s : store F).

Lemma job_usage_cases s job_no :
  job_usage true job_no s =
  (if nonempty (strip job_no)
   then match fst (_job_usage s (strip job_no)) with
        | [] => Err no_usage_found
        | items =>
            Ok (mkJobUsageResponse (strip job_no)
                  (snd (_job_usage s (strip job_no))) items)
        end
   else Err job_no_is_required, s).
Proof.
  unfold job_usage, bind, reject_if, fail, ret. simpl.
  destruct (nonempty (strip job_no)); simpl; [|reflexivity].
  destruct (_job_usage s (strip job_no)) as [items total].
  destruct items; reflexivity.
Qed.

(** C8 (amended). In a consistent database, [usage] of a job number that
    is empty once stripped of white space fails with InvalidInput;
    otherwise it fails with NotFound if and only if no transaction row has
    the stripped job number with action checkout or reverse, and these are
    its only failures.  Whenever such a row exists, the report is answered
    and holds a line for the row's item and price whose [net_qty] is the
    negated sum over the group, whatever that sum is: a group that nets to
    0 is a line like any other.  The request writes nothing. *)
Theorem job_usage_failures s job_no :
  consistent s ->
  let out := job_usage true job_no s in
  (fails_with InvalidInput (fst out) <-> strip job_no = EmptyString) /\
  (fails_with NotFound (fst out) <->
   strip job_no <> EmptyString /\
   forall t, In t (transactions s) -> ~ selected (strip job_no) t) /\
  (forall e, fst out = Err e -> kind e = InvalidInput \/ kind e = NotFound) /\
  (forall t,
     strip job_no <> EmptyString ->
     In t (transactions s) -> selected (strip job_no) t ->
     exists resp u,
       fst out = Ok resp /\ In u (ju_items resp) /\
       u_item_id u = Tx.item_id t /\ u_unit_price u = Tx.unit_price t /\
       u_net_qty u =
         - sumZ (map (@Tx.change_qty F)
                   (filter (in_usage_group (strip job_no) (Tx.item_id t)
                              (Tx.unit_price t))
                           (transactions s)))) /\
  snd out = s.
Proof.
  intros C out. subst out.
  rewrite job_usage_cases. simpl.
  destruct (nonempty (strip job_no)) eqn:En.
  - apply nonempty_true in En.
    destruct (fst (_job_usage s (strip job_no))) as [|u0 items] eqn:Ei.
    + (* no line *)
      assert (forall t, In t (transactions s) ->
                        ~ selected (strip job_no) t) as Hnone.
      { intros t Hin Hsel.
        destruct (usage_covers C Hin Hsel) as [u [Hu _]].
        rewrite Ei in Hu. exact Hu. }
      split; [split; intros; break_hyps; try close_case|].
      split; [split; intros; break_hyps; try close_case|].
      split; [intros e [= <-]; now right|].
      split; [|reflexivity].
      intros t _ Hin Hsel. exfalso. exact (Hnone t Hin Hsel).
    + (* some line *)
      split; [split; intros; break_hyps; try close_case|].
      split.
      { split; intros; break_hyps; try close_case.
        exfalso.
        assert (In u0 (fst (_job_usage s (strip job_no)))) as Hu0
          by (rewrite Ei; now left).
        destruct (usage_lines _ _ C Hu0) as [[t [Hin [Hsel _]]] _].
        match goal with
        | Hn : forall t, In t _ -> ~ _ |- _ => exact (Hn t Hin Hsel)
        end. }
      split; [discriminate|].
      split; [|reflexivity].
      intros t _ Hin Hsel.
      destruct (usage_covers C Hin Hsel) as [u [Hu [Hid Hp]]].
      destruct (usage_lines (strip job_no) u C Hu) as [_ [_ [Hnet _]]].
      eexists. exists u. split; [reflexivity|].
      cbn [ju_items]. rewrite <- Ei. split; [exact Hu|].
      split; [exact Hid|]. split; [exact Hp|].
      rewrite Hnet, Hid, Hp. reflexivity.
  - apply nonempty_false in En.
    split; [split; intros; break_hyps; try close_case|].
    split; [split; intros; break_hyps; try close_case|].
    split; [intros e [= <-]; now left|].
    split; [|reflexivity].
    intros t Hne. contradiction.
Qed.

End NoUsage.

(** A job number of white space only matches no row, yet the failure is
    InvalidInput and not NotFound. *)
Lemma job_usage_blank_counterexample :
  (forall t, In t (transactions (@empty_store Z)) ->
             ~ selected " "%string t) /\
  fst (job_usage true " "%string (@empty_store Z)) =
    Err job_no_is_required /\
  kind job_no_is_required = InvalidInput /\
  ~ fails_with NotFound (fst (job_usage true " "%string (@empty_store Z))).
Proof.
  split; [intros t []|]. repeat split.
  intros [e [E K]]. vm_compute in E. injection E as <-. discriminate K.
Qed.

(** After the only checkout of job J1 was reversed, its report is one
    line of usage 0. *)
Lemma job_usage_failures_witness :
  exists resp u,
    fst (job_usage true "J1"%string (exec fully_reversed)) = Ok resp /\
    In u (ju_items resp) /\
    u_item_id u = 1 /\ u_unit_price u = rands 10 /\
    u_net_qty u = 0.
Proof.
  exact (proj1 (proj2 (proj2 (proj2
           (job_usage_failures "J1"%string
              (reachable_consistent (reachable_exec fully_reversed))))))
           (Tx.mk 1 1 (-5) (Some "J1"%string) Action.checkout (rands 10)
                  None 0)
           ltac:(discriminate) (or_introl eq_refl)
           (conj eq_refl (or_introl eq_refl))).
Defined.

(* ------------------------------------------------------------------ *)
(** ** What a request leaves alone *)

Section Frame.

Context {F : Type} `{Float F}.

Implicit Types (s : store F) (r : request (F:=F)).

Lemma same_but_quantity_refl (a : Stock.row F) : same_but_quantity a a.
Proof. repeat split. Qed.

Lemma Forall2_map_right {A B} (R : A -> B -> Prop) (f : A -> B)
    (l : list A) :
  (forall a, In a l -> R a (f a)) -> Forall2 R l (map f l).
Proof.
  induction l as [|x l IH]; simpl; intro Hf; constructor.
  - apply Hf. now left.
  - apply IH. intros a Ha. apply Hf. now right.
Qed.

Lemma Forall2_same {A} (R : A -> A -> Prop) (l : list A) :
  (forall a, R a a) -> Forall2 R l l.
Proof. intro Hr. induction l; constructor; auto. Qed.

(** The stock rows after a ledger write on item [i]. *)
Lemma frame_ledger_write s i nq d j act p rf :
  Forall2 (fun a b => same_but_quantity a b /\ (Stock.id a <> i -> b = a))
          (stock s) (stock (ledger_write s i nq d j act p rf)).
Proof.
  rewrite ledger_write_stock. apply Forall2_map_right. intros a _.
  destruct (Z.eqb_spec (Stock.id a) i).
  - split; [repeat split | contradiction].
  - split; [apply same_but_quantity_refl | reflexivity].
Qed.

(** C10. Whatever the database and the request: the stock rows that were
    there are all still there, in place, each with its id, name, minimum
    level, price, supplier and reorder quantity, and the rows of items
    other than the target of the request are unchanged altogether; the
    existing transaction rows are unchanged and new ones only come after
    them.  A served checkout, receive or reverse adds no stock row and
    exactly one transaction row; a creation adds no transaction row; a
    request answered with an error changes nothing. *)
Theorem ledger_frame r s :
  exists kept created appended,
    stock (handle r s) = kept ++ created /\
    Forall2 (fun a b => same_but_quantity a b /\
                        (target r s <> Some (Stock.id a) -> b = a))
            (stock s) kept /\
    transactions (handle r s) = transactions s ++ appended /\
    (is_ledger_request r = true -> created = []) /\
    (is_ledger_request r = true -> fst (serve r s) = true ->
     List.length appended = 1%nat) /\
    (is_ledger_request r = false -> appended = []) /\
    (fst (serve r s) = false -> handle r s = s).
Proof.
  assert (forall s, Forall2
            (fun a b : Stock.row F =>
               same_but_quantity a b /\
               (target r s <> Some (Stock.id a) -> b = a))
            (stock s) (stock s)) as Hsame.
  { intro s0. apply Forall2_same. intro a.
    split; [apply same_but_quantity_refl | reflexivity]. }
  assert (forall i nq d j act p rf,
            target r s = Some i ->
            exists kept created appended,
              stock (ledger_write s i nq d j act p rf) = kept ++ created /\
              Forall2 (fun a b => same_but_quantity a b /\
                                  (target r s <> Some (Stock.id a) -> b = a))
                      (stock s) kept /\
              transactions (ledger_write s i nq d j act p rf) =
                transactions s ++ appended /\
              created = [] /\ List.length appended = 1%nat) as Hwrite.
  { intros i nq d j act p rf Ht.
    exists (stock (ledger_write s i nq d j act p rf)), [].
    eexists. split; [now rewrite app_nil_r|].
    split; [|split; [apply ledger_write_transactions | split; reflexivity]].
    eapply Forall2_impl; [|apply frame_ledger_write].
    intros a b [Hs Hne]. split; [exact Hs|].
    intro Hn. apply Hne. rewrite Ht in Hn. congruence. }
  assert (exists kept created appended : list _,
            stock s = kept ++ created /\
            Forall2 (fun a b => same_but_quantity a b /\
                                (target r s <> Some (Stock.id a) -> b = a))
                    (stock s) kept /\
            transactions s = transactions s ++ appended /\
            created = [] /\ appended = []) as Hnothing.
  { exists (stock s), [], []. rewrite !app_nil_r. repeat split.
    apply Hsame. }
  pose proof (rejected_unchanged r s) as Hrej.
  revert Hwrite Hnothing Hrej. unfold handle, serve, target.
  destruct r as [a n q m p su ro | a i q j | a i q | a t];
    intros Hwrite Hnothing Hrej.
  - destruct (add_item_spec a n q m p su ro s); simpl in *;
      try (destruct Hnothing as [k [c [ap [E1 [E2 [E3 [-> ->]]]]]]];
           exists k, [], []; repeat split;
        first [assumption | discriminate | intros; reflexivity
              | intros; assumption]).
    exists (stock s). eexists. exists [].
    split; [reflexivity|]. split; [apply Hsame|].
    split; [now rewrite app_nil_r|].
    repeat split; first [discriminate | intros; reflexivity].
  - destruct (checkout_spec a i q j s); simpl in *;
      try (destruct Hnothing as [k [c [ap [E1 [E2 [E3 [-> ->]]]]]]];
           exists k, [], []; repeat split;
        first [assumption | discriminate | intros; reflexivity
              | intros; assumption]).
    destruct (Hwrite (get0 i) (Stock.quantity it - get0 q) (- get0 q)
                (Some (strip (str_or_empty j))) Action.checkout
                (Stock.unit_price it) None eq_refl)
      as [k [c [ap [E1 [E2 [E3 [-> E5]]]]]]].
    exists k, [], ap. repeat split;
        first [assumption | discriminate | intros; reflexivity
              | intros; assumption].
  - destruct (receive_spec a i q s); simpl in *;
      try (destruct Hnothing as [k [c [ap [E1 [E2 [E3 [-> ->]]]]]]];
           exists k, [], []; repeat split;
        first [assumption | discriminate | intros; reflexivity
              | intros; assumption]).
    destruct (Hwrite (get0 i) (Stock.quantity it + get0 q) (get0 q)
                None Action.receive (Stock.unit_price it) None eq_refl)
      as [k [c [ap [E1 [E2 [E3 [-> E5]]]]]]].
    exists k, [], ap. repeat split;
        first [assumption | discriminate | intros; reflexivity
              | intros; assumption].
  - destruct (reverse_transaction_spec a t s) as
      [| | | | | | |tx it Ha Ht Htx Hact Hrev Hit Hq]; simpl in *;
      try (destruct Hnothing as [k [c [ap [E1 [E2 [E3 [-> ->]]]]]]];
           exists k, [], []; repeat split;
        first [assumption | discriminate | intros; reflexivity
              | intros; assumption]).
    destruct (Hwrite (Tx.item_id tx)
                (Stock.quantity it - Tx.change_qty tx) (- Tx.change_qty tx)
                (Tx.job_no tx) Action.reverse (Tx.unit_price tx)
                (Some (get0 t)))
      as [k [c [ap [E1 [E2 [E3 [-> E5]]]]]]].
    { now rewrite Htx. }
    exists k, [], ap. repeat split;
        first [assumption | discriminate | intros; reflexivity
              | intros; assumption].
Qed.

End Frame.

Lemma ledger_frame_witness :
  exists kept created appended,
    stock (handle (POST_reverse true (Some 1)) (exec scenario)) =
      kept ++ created /\
    Forall2 (fun a b => same_but_quantity a b /\
                        (target (POST_reverse true (Some 1)) (exec scenario)
                         <> Some (Stock.id a) -> b = a))
            (stock (exec scenario)) kept /\
    transactions (handle (POST_reverse true (Some 1)) (exec scenario)) =
      transactions (exec scenario) ++ appended /\
    (is_ledger_request (POST_reverse (F:=Z) true (Some 1)) = true ->
     created = []) /\
    (is_ledger_request (POST_reverse (F:=Z) true (Some 1)) = true ->
     fst (serve (POST_reverse true (Some 1)) (exec scenario)) = true ->
     List.length appended = 1%nat) /\
    (is_ledger_request (POST_reverse (F:=Z) true (Some 1)) = false ->
     appended = []) /\
    (fst (serve (POST_reverse true (Some 1)) (exec scenario)) = false ->
     handle (POST_reverse true (Some 1)) (exec scenario) = exec scenario).
Proof.
  exact (ledger_frame (POST_reverse true (Some 1)) (exec scenario)).
Defined.

(* ------------------------------------------------------------------ *)
(** ** The scenario of the specification, run *)

Example scenario_first_checkout :
  fst (checkout true (Some 1) (Some 5) (Some "J1"%string)
         (exec [scenario_item])) =
  Ok (mkCheckoutResponse 95 false (rands 10) (rands 50)).
Proof. reflexivity. Qed.

Example scenario_quantity : quantity_of (exec scenario) 1 = Some 92.
Proof. reflexivity. Qed.

Example scenario_usage :
  fst (job_usage true "J1"%string (exec scenario)) =
  Ok (mkJobUsageResponse "J1"%string (rands 80)
        [mkUsageItem 1 "A"%string 8 (rands 10) (rands 80)]).
Proof. reflexivity. Qed.

Example scenario_reversed_quantity :
  quantity_of (exec scenario_reversed) 1 = Some 97.
Proof. reflexivity. Qed.

Example scenario_reversed_usage :
  fst (job_usage true "J1"%string (exec scenario_reversed)) =
  Ok (mkJobUsageResponse "J1"%string (rands 30)
        [mkUsageItem 1 "A"%string 3 (rands 10) (rands 30)]).
Proof. reflexivity. Qed.

Example scenario_no_such_job :
  fst (job_usage true "NOPE"%string (exec scenario)) = Err no_usage_found.
Proof. reflexivity. Qed.

Example strip_both_ends :
  strip "  J1 "%string = "J1"%string /\ strip "   "%string = EmptyString.
Proof. split; reflexivity. Qed.

(* ------------------------------------------------------------------ *)
(** ** The token gate *)

Section Gate.

Context {F : Type} `{Float F}.

Implicit Types (s : store F).

Lemma require_auth_iff env header :
  require_auth env header = true <->
  match header with Some t => t | None => EmptyString end = AUTH_TOKEN env.
Proof. unfold require_auth. apply String.eqb_eq. Qed.

(** X1. When the [X-Auth-Token] header is absent or differs from the
    configured token, every writing handler and the job report answer 401
    unauthorized, whatever the rest of the request, and the database is as
    it was.  A request without the header passes the gate exactly when
    [TOPCAR_TOKEN] is set to the empty string. *)
Theorem gate_closed env header s :
  match header with Some t => t | None => EmptyString end <> AUTH_TOKEN env ->
  let auth := require_auth env header in
  (forall n q m p su ro,
     add_item auth n q m p su ro s = (Err unauthorized, s)) /\
  (forall i q j, checkout auth i q j s = (Err unauthorized, s)) /\
  (forall i q, receive auth i q s = (Err unauthorized, s)) /\
  (forall t, reverse_transaction auth t s = (Err unauthorized, s)) /\
  (forall j, job_usage auth j s = (Err unauthorized, s)) /\
  status unauthorized = 401 /\
  (require_auth env None = true <-> env = Some EmptyString).
Proof.
  intros Hne auth.
  assert (auth = false) as ->.
  { subst auth. destruct (require_auth env header) eqn:E; [|reflexivity].
    apply require_auth_iff in E. contradiction. }
  repeat split; try reflexivity.
  - intro E. apply require_auth_iff in E.
    destruct env as [t|]; [simpl in E; now subst | discriminate E].
  - intros ->. reflexivity.
Qed.

(** X2. [receive], with an absent item id or quantity counting as 0,
    fails with InvalidInput exactly when the item id or the quantity is not
    positive and with NotFound exactly when both are positive and no item
    has the id; it has no other failure and a failure writes nothing.
    Otherwise it adds the quantity to the item's, appends a receive row of
    change [+qty] without job number at the item's price, and answers with
    the new quantity and that price; a receipt is never refused for lack
    of room. *)
Theorem receive_outcomes s j_item_id j_quantity :
  let out := receive true j_item_id j_quantity s in
  let i := get0 j_item_id in
  let q := get0 j_quantity in
  (fails_with InvalidInput (fst out) <-> i <= 0 \/ q <= 0) /\
  (fails_with NotFound (fst out) <->
   0 < i /\ 0 < q /\ item_of s i = None) /\
  (forall e, fst out = Err e ->
     (kind e = InvalidInput \/ kind e = NotFound) /\ snd out = s) /\
  (forall it,
     0 < i -> 0 < q -> item_of s i = Some it ->
     fst out =
       Ok (mkReceiveResponse (Stock.quantity it + q) (Stock.unit_price it)) /\
     quantity_of (snd out) i = Some (Stock.quantity it + q) /\
     transactions (snd out) =
       transactions s ++
       [Tx.mk (transactions_seq s + 1) i q None Action.receive
              (Stock.unit_price it) None 0]).
Proof.
  intros out i q. subst out i q.
  destruct (receive_spec true j_item_id j_quantity s) as
    [Ha|Ha Hn|Ha Hi Hq Hit|it Ha Hi Hq Hit];
    simpl in *; try discriminate Ha.
  - repeat split; intros; break_hyps; simpl; try close_case.
  - repeat split; intros; break_hyps; simpl; try close_case.
  - split; [split; intros; break_hyps; try close_case|].
    split; [split; intros; break_hyps; try close_case|].
    split; [discriminate|].
    intros it' _ _ Hit'. assert (it' = it) by congruence. subst it'.
    split; [reflexivity|]. split; [|reflexivity].
    rewrite quantity_of_ledger_write by exact Hit.
    rewrite Z.eqb_refl. unfold quantity_of. rewrite Hit. simpl.
    f_equal. lia.
Qed.

End Gate.

Lemma gate_closed_witness :
  checkout (require_auth None (Some "guess"%string)) (Some 1) (Some 5)
           (Some "J1"%string) (exec [scenario_item])
  = (Err unauthorized, exec [scenario_item]).
Proof.
  exact (proj1 (proj2 (gate_closed None (Some "guess"%string)
                         (exec [scenario_item]) ltac:(discriminate)))
           (Some 1) (Some 5) (Some "J1"%string)).
Defined.

(* ------------------------------------------------------------------ *)
(** ** The stock list and the reorder list *)

Section Lists.

Context {F : Type} `{Float F}.

Implicit Types (s : store F) (l : list (Stock.row F)).

Lemma insert_stock_by_name_perm (r : Stock.row F) l :
  Permutation (insert_stock_by_name r l) (r :: l).
Proof.
  induction l as [|x l IH]; simpl; [reflexivity|].
  destruct (String.leb (Stock.name r) (Stock.name x)); [reflexivity|].
  rewrite IH. apply perm_swap.
Qed.

Lemma order_stock_by_name_perm l : Permutation (order_stock_by_name l) l.
Proof.
  induction l as [|x l IH]; simpl; [reflexivity|].
  rewrite insert_stock_by_name_perm. now constructor.
Qed.

Lemma insert_stock_by_name_sorted (r : Stock.row F) l :
  StronglySorted stock_name_le l ->
  StronglySorted stock_name_le (insert_stock_by_name r l).
Proof.
  induction 1 as [|x l Hl IH Hx]; simpl.
  - repeat constructor.
  - destruct (String.leb (Stock.name r) (Stock.name x)) eqn:E.
    + constructor; [now constructor|].
      constructor; [exact E|].
      eapply Forall_impl; [|exact Hx]. intros y Hy.
      unfold stock_name_le in *. eapply leb_trans; eassumption.
    + constructor; [exact IH|].
      rewrite Forall_forall. intros y Hy.
      apply (Permutation_in _ (insert_stock_by_name_perm r l)) in Hy.
      destruct Hy as [<-|Hy].
      * unfold stock_name_le.
        destruct (String.leb_total (Stock.name r) (Stock.name x));
          congruence.
      * rewrite Forall_forall in Hx. now apply Hx.
Qed.

Lemma order_stock_by_name_sorted l :
  StronglySorted stock_name_le (order_stock_by_name l).
Proof.
  induction l as [|x l IH]; simpl; [constructor|].
  now apply insert_stock_by_name_sorted.
Qed.

(** X3. [GET /stock] answers, without asking for a token, with every stock
    row exactly once, none added and none dropped, in ascending order of
    name; on a database without items it answers with the empty list. *)
Theorem get_stock_lists_all s :
  Permutation (get_stock s) (stock s) /\
  StronglySorted
    (fun a b => String.leb (Stock.name a) (Stock.name b) = true)
    (get_stock s) /\
  (forall it, In it (get_stock s) <-> In it (stock s)) /\
  List.length (get_stock s) = List.length (stock s) /\
  (stock s = [] -> get_stock s = []).
Proof.
  unfold get_stock.
  pose proof (order_stock_by_name_perm (stock s)) as P.
  split; [exact P|].
  split; [apply order_stock_by_name_sorted|].
  split; [|split].
  - intro it. split; apply Permutation_in;
      [exact P | exact (Permutation_sym P)].
  - now apply Permutation_length.
  - intros ->. reflexivity.
Qed.

(** X4. [GET /reorder] lists, in ascending order of name, exactly the
    items whose quantity is at most their minimum level: an item at its
    minimum level is listed, one unit above it is not; each line carries
    the item's id, name, quantity, minimum level, supplier and reorder
    quantity, and every line is a row of the stock list. *)
Theorem reorder_list_is_low_stock s :
  (forall it, In it (stock s) ->
     Stock.quantity it <= Stock.min_level it ->
     In (mkReorderRow (Stock.id it) (Stock.name it) (Stock.quantity it)
                      (Stock.min_level it) (Stock.supplier it)
                      (Stock.reorder_qty it))
        (reorder_list s)) /\
  (forall row, In row (reorder_list s) ->
     ro_quantity row <= ro_min_level row /\
     exists it, In it (get_stock s) /\
       ro_id row = Stock.id it /\ ro_name row = Stock.name it /\
       ro_quantity row = Stock.quantity it /\
       ro_min_level row = Stock.min_level it /\
       ro_supplier row = Stock.supplier it /\
       ro_reorder_qty row = Stock.reorder_qty it) /\
  StronglySorted (fun a b => String.leb (ro_name a) (ro_name b) = true)
                 (reorder_list s) /\
  List.length (reorder_list s) =
    List.length (filter needs_reorder (stock s)).
Proof.
  unfold reorder_list.
  pose proof (order_stock_by_name_perm (filter needs_reorder (stock s)))
    as P.
  split; [|split; [|split]].
  - intros it Hin Hle. apply in_map_iff. exists it. split; [reflexivity|].
    apply (Permutation_in _ (Permutation_sym P)).
    apply filter_In. split; [exact Hin|].
    unfold needs_reorder. now apply Z.leb_le.
  - intros row Hrow. apply in_map_iff in Hrow.
    destruct Hrow as [it [<- Hit]].
    apply (Permutation_in _ P) in Hit. apply filter_In in Hit.
    destruct Hit as [Hin Hlow]. unfold needs_reorder in Hlow.
    apply Z.leb_le in Hlow. simpl. split; [exact Hlow|].
    exists it. split; [|repeat split].
    unfold get_stock.
    apply (Permutation_in _ (Permutation_sym
                               (order_stock_by_name_perm (stock s)))).
    exact Hin.
  - apply StronglySorted_map with (R := stock_name_le).
    + intros a b Hab. exact Hab.
    + apply order_stock_by_name_sorted.
  - rewrite length_map. now apply Permutation_length.
Qed.

Lemma in_reorder_list s row :
  In row (reorder_list s) <->
  exists it, In it (stock s) /\ Stock.quantity it <= Stock.min_level it /\
    row = mkReorderRow (Stock.id it) (Stock.name it) (Stock.quantity it)
            (Stock.min_level it) (Stock.supplier it) (Stock.reorder_qty it).
Proof.
  unfold reorder_list. rewrite in_map_iff.
  pose proof (order_stock_by_name_perm (filter needs_reorder (stock s)))
    as P.
  split.
  - intros [it [<- Hit]]. apply (Permutation_in _ P) in Hit.
    apply filter_In in Hit. destruct Hit as [Hin Hlow].
    unfold needs_reorder in Hlow. apply Z.leb_le in Hlow.
    exists it. repeat split; assumption.
  - intros [it [Hin [Hlow ->]]]. exists it. split; [reflexivity|].
    apply (Permutation_in _ (Permutation_sym P)).
    apply filter_In. split; [exact Hin|].
    unfold needs_reorder. now apply Z.leb_le.
Qed.

(** X5. In a consistent database, the [low_stock_alert] of a served
    checkout is true exactly when the item is on the reorder list right
    after it, and the item's line there then shows the new quantity. *)
Theorem low_stock_alert_is_reorder_list s i q j resp s' :
  consistent s ->
  checkout true i q j s = (Ok resp, s') ->
  (co_low_stock_alert resp = true <->
   exists row, In row (reorder_list s') /\ ro_id row = get0 i) /\
  (forall row, In row (reorder_list s') -> ro_id row = get0 i ->
     ro_quantity row = co_new_quantity resp).
Proof.
  intros C.
  destruct (checkout_spec true i q j s) as
    [| | | | |it _ Hi Hq Hj Hit Hle]; try discriminate.
  intros [= <- <-]. simpl.
  destruct (item_of_some _ _ Hit) as [Hin Hid].
  assert (forall row,
            In row (reorder_list
                      (ledger_write s (get0 i) (Stock.quantity it - get0 q)
                         (- get0 q) (Some (strip (str_or_empty j)))
                         Action.checkout (Stock.unit_price it) None)) ->
            ro_id row = get0 i ->
            ro_quantity row = Stock.quantity it - get0 q /\
            Stock.quantity it - get0 q <= Stock.min_level it) as Hrow.
  { intros row Hr Hrid. apply in_reorder_list in Hr.
    destruct Hr as [x' [Hx' [Hlow ->]]].
    rewrite ledger_write_stock in Hx'. apply in_map_iff in Hx'.
    destruct Hx' as [x [<- Hx]]. cbn [ro_id ro_quantity] in *.
    destruct (Z.eqb_spec (Stock.id x) (get0 i)) as [E|E].
    - pose proof (item_of_in _ C Hx) as Hx2. rewrite E, Hit in Hx2.
      injection Hx2 as <-. simpl in *. split; [reflexivity | exact Hlow].
    - exfalso. apply E. exact Hrid. }
  split; [split|].
  - intro Hlow. apply Z.leb_le in Hlow.
    eexists. split.
    + apply in_reorder_list.
      exists (Stock.set_quantity (Stock.quantity it - get0 q) it).
      split; [|split; [exact Hlow | reflexivity]].
      rewrite ledger_write_stock. apply in_map_iff. exists it.
      rewrite Hid, Z.eqb_refl. split; [reflexivity | exact Hin].
    + simpl. exact Hid.
  - intros [row [Hr Hrid]]. apply Z.leb_le.
    now destruct (Hrow row Hr Hrid).
  - intros row Hr Hrid. now destruct (Hrow row Hr Hrid).
Qed.

Lemma find_app_new {A} (p : A -> bool) (l : list A) (x : A) :
  (forall y, In y l -> p y = false) -> p x = true ->
  find p (l ++ [x]) = Some x.
Proof.
  intros Hl Hx. induction l as [|y l IH]; simpl.
  - now rewrite Hx.
  - rewrite (Hl y (or_introl eq_refl)). apply IH.
    intros z Hz. apply Hl. now right.
Qed.

(** X6. In a consistent database, the item a served creation adds is
    found under the id it was given, every item found before is still
    found and unchanged, the stock list grows by exactly that row, the
    transactions are as they were, and the new item is on the reorder list
    exactly when its starting quantity is at most its minimum level. *)
Theorem created_item_is_found s n q m p su ro resp s' :
  consistent s ->
  add_item true n q m p su ro s = (Ok resp, s') ->
  let new :=
    Stock.mk (stock_seq s + 1) (strip (str_or_empty n)) (get0 q) (get0 m)
      (match p with Some x => x | None => fzero end)
      (strip (str_or_empty su)) (get0 ro) in
  item_of s' (stock_seq s + 1) = Some new /\
  item_of s (stock_seq s + 1) = None /\
  (forall k it, item_of s k = Some it -> item_of s' k = Some it) /\
  Permutation (get_stock s') (new :: get_stock s) /\
  transactions s' = transactions s /\
  ((exists row, In row (reorder_list s') /\ ro_id row = stock_seq s + 1) <->
   get0 q <= get0 m).
Proof.
  intros C.
  destruct (add_item_spec true n q m p su ro s) as
    [| | |_ Hn Hq Hm Hp Hro]; try discriminate.
  intros [= <- <-] new.
  pose proof (item_ids_issued C) as C2. rewrite Forall_forall in C2.
  assert (forall y, In y (stock s) ->
            (Stock.id y =? stock_seq s + 1) = false) as Hfresh.
  { intros y Hy. specialize (C2 y Hy). lia. }
  split; [|split; [|split; [|split; [|split]]]].
  - unfold item_of. simpl. apply find_app_new; [exact Hfresh|].
    simpl. apply Z.eqb_refl.
  - unfold item_of. apply find_none_iff. intros [y [Hy Hid]].
    rewrite (Hfresh y Hy) in Hid. discriminate.
  - intros k it Hk. unfold item_of in *. simpl. now apply find_app_some.
  - unfold get_stock. simpl.
    rewrite order_stock_by_name_perm.
    rewrite (order_stock_by_name_perm (stock s)).
    rewrite Permutation_app_comm. reflexivity.
  - reflexivity.
  - split.
    + intros [row [Hr Hrid]]. apply in_reorder_list in Hr.
      destruct Hr as [x [Hx [Hlow ->]]]. simpl in *.
      apply in_app_or in Hx. destruct Hx as [Hx|[<-|[]]].
      * specialize (C2 x Hx). lia.
      * exact Hlow.
    + intro Hlow. eexists. split.
      * apply in_reorder_list. exists new.
        split; [simpl; apply in_or_app; right; now left|].
        split; [exact Hlow | reflexivity].
      * reflexivity.
Qed.

End Lists.

Lemma low_stock_alert_is_reorder_list_witness :
  (true = true <->
   exists row,
     In row (reorder_list
               (snd (checkout true (Some 1) (Some 100) (Some "J1"%string)
                       (exec [scenario_item])))) /\
     ro_id row = 1).
Proof.
  exact (proj1 (low_stock_alert_is_reorder_list
                  (Some 1) (Some 100) (Some "J1"%string)
                  (reachable_consistent (reachable_exec [scenario_item]))
                  eq_refl)).
Defined.

Lemma created_item_is_found_witness :
  item_of (snd (add_item true (Some "B"%string) (Some 3) (Some 5) None None
                  None (exec [scenario_item]))) 2 =
  Some (Stock.mk 2 "B"%string 3 5 0 EmptyString 0).
Proof.
  exact (proj1 (created_item_is_found (Some "B"%string) (Some 3) (Some 5)
                  None None None
                  (reachable_consistent (reachable_exec [scenario_item]))
                  eq_refl)).
Defined.

(* ------------------------------------------------------------------ *)
(** ** What the rows of a reachable database look like *)

Lemma lstrip_idem (s : string) : lstrip (lstrip s) = lstrip s.
Proof.
  induction s as [|c s IH]; simpl; [reflexivity|].
  destruct (is_space c) eqn:E; [exact IH|].
  simpl. now rewrite E.
Qed.

Lemma rstrip_idem (s : string) : rstrip (rstrip s) = rstrip s.
Proof.
  induction s as [|c s IH]; simpl; [reflexivity|].
  destruct (rstrip s) as [|a r] eqn:E.
  - destruct (is_space c) eqn:Ec; simpl; [reflexivity|].
    now rewrite Ec.
  - change (rstrip (String c (String a r))) with
      (match rstrip (String a r) with
       | EmptyString =>
           if is_space c then EmptyString else String c EmptyString
       | String _ _ as r' => String c r'
       end).
    now rewrite IH.
Qed.

Lemma rstrip_fixed_lstrip (t : string) :
  rstrip t = t -> rstrip (lstrip t) = lstrip t.
Proof.
  induction t as [|c t IH]; simpl; [reflexivity|].
  intro Hfix. destruct (is_space c) eqn:Ec.
  - apply IH. destruct (rstrip t) as [|a r] eqn:E.
    + discriminate Hfix.
    + now injection Hfix.
  - simpl. destruct (rstrip t) as [|a r] eqn:E.
    + rewrite Ec in *. exact Hfix.
    + exact Hfix.
Qed.

Lemma strip_idem (s : string) : strip (strip s) = strip s.
Proof.
  unfold strip.
  rewrite (@rstrip_fixed_lstrip (rstrip s) (rstrip_idem s)).
  apply lstrip_idem.
Qed.

Section Rows.

Context {F : Type} `{Float F}.

Implicit Types (s : store F).

(** Induction over the served requests of a history: what holds of the
    fresh database and is kept by every served creation, checkout, receipt
    and reversal holds of every reachable database. *)
Lemma reachable_ind_served (P : store F -> Prop) :
  P empty_store ->
  (forall s n q m p su ro,
     reachable s -> P s ->
     strip (str_or_empty n) <> EmptyString ->
     0 <= get0 q -> 0 <= get0 m ->
     fneg (match p with Some x => x | None => fzero end) = false ->
     0 <= get0 ro ->
     P (mkStore
          (stock s ++
           [Stock.mk (stock_seq s + 1) (strip (str_or_empty n)) (get0 q)
              (get0 m) (match p with Some x => x | None => fzero end)
              (strip (str_or_empty su)) (get0 ro)])
          (stock_seq s + 1) (transactions s) (transactions_seq s))) ->
  (forall s i q j it,
     reachable s -> P s ->
     0 < i -> 0 < q -> strip j <> EmptyString ->
     item_of s i = Some it -> q <= Stock.quantity it ->
     P (ledger_write s i (Stock.quantity it - q) (- q) (Some (strip j))
          Action.checkout (Stock.unit_price it) None)) ->
  (forall s i q it,
     reachable s -> P s ->
     0 < i -> 0 < q -> item_of s i = Some it ->
     P (ledger_write s i (Stock.quantity it + q) q None Action.receive
          (Stock.unit_price it) None)) ->
  (forall s k tx it,
     reachable s -> P s ->
     0 < k -> tx_of s k = Some tx -> Tx.action tx <> Action.reverse ->
     ~ reversal_exists s k ->
     item_of s (Tx.item_id tx) = Some it ->
     0 <= Stock.quantity it - Tx.change_qty tx ->
     P (ledger_write s (Tx.item_id tx)
          (Stock.quantity it - Tx.change_qty tx) (- Tx.change_qty tx)
          (Tx.job_no tx) Action.reverse (Tx.unit_price tx) (Some k))) ->
  forall s, reachable s -> P s.
Proof.
  intros Hempty Hadd Hco Hrc Hrv s R.
  induction R as [|r s R IH]; [exact Hempty|].
  unfold handle, serve.
  destruct r as [a n q m p su ro | a i q j | a i q | a t].
  - destruct (add_item_spec a n q m p su ro s); simpl; try exact IH.
    now apply Hadd.
  - destruct (checkout_spec a i q j s); simpl; try exact IH.
    now apply Hco.
  - destruct (receive_spec a i q s); simpl; try exact IH.
    now apply Hrc.
  - destruct (reverse_transaction_spec a t s); simpl; try exact IH.
    now apply Hrv.
Qed.

(** *** The shape of each row *)

Lemma reachable_shapes s :
  reachable s -> Forall (@tx_shape F) (transactions s).
Proof.
  revert s. apply reachable_ind_served.
  - constructor.
  - intros; assumption.
  - intros s i q j it R IH Hi Hq Hj Hit Hle.
    rewrite ledger_write_transactions. apply Forall_app. split; [exact IH|].
    constructor; [|constructor]. split; [reflexivity|]. simpl.
    split; [lia|]. split; [reflexivity|].
    exists (strip j). split; [reflexivity|]. split; [exact Hj|].
    apply strip_idem.
  - intros s i q it R IH Hi Hq Hit.
    rewrite ledger_write_transactions. apply Forall_app. split; [exact IH|].
    constructor; [|constructor]. split; [reflexivity|]. simpl.
    split; [lia|]. split; reflexivity.
  - intros s k tx it R IH Hk Htx Hact Hrev Hit Hq.
    rewrite ledger_write_transactions. apply Forall_app. split; [exact IH|].
    constructor; [|constructor]. split; [reflexivity|]. simpl.
    now exists k.
Qed.

(** *** Reversal rows against their targets *)

Lemma mirrors_append s i nq d j act p rf (t : Tx.row F) :
  mirrors s t -> mirrors (ledger_write s i nq d j act p rf) t.
Proof.
  intros M k Hk. destruct (M k Hk) as [o [Ho Hrest]].
  exists o. split; [now apply tx_of_ledger_write | exact Hrest].
Qed.

Lemma reachable_mirrors s :
  reachable s -> Forall (mirrors s) (transactions s).
Proof.
  revert s. apply reachable_ind_served.
  - constructor.
  - intros; assumption.
  - intros s i q j it R IH Hi Hq Hj Hit Hle.
    rewrite ledger_write_transactions at 1. apply Forall_app. split.
    + eapply Forall_impl; [|exact IH]. intro t. apply mirrors_append.
    + constructor; [|constructor]. intros k Hk. discriminate Hk.
  - intros s i q it R IH Hi Hq Hit.
    rewrite ledger_write_transactions at 1. apply Forall_app. split.
    + eapply Forall_impl; [|exact IH]. intro t. apply mirrors_append.
    + constructor; [|constructor]. intros k Hk. discriminate Hk.
  - intros s k tx it R IH Hk Htx Hact Hrev Hit Hq.
    rewrite ledger_write_transactions at 1. apply Forall_app. split.
    + eapply Forall_impl; [|exact IH]. intro t. apply mirrors_append.
    + constructor; [|constructor]. intros k' [= <-].
      exists tx. split; [now apply tx_of_ledger_write|].
      repeat split; assumption.
Qed.

(** X7. In every reachable database each checkout row has a negative
    change, a job number that is not empty and carries no surrounding white
    space, and no link; each receive row has a positive change, no job
    number and no link; each reverse row has a link; no row has change 0;
    and the legacy flag [is_reversed] is 0 on every row. *)
Theorem transaction_rows_are_well_formed s :
  reachable s ->
  forall t, In t (transactions s) ->
    Tx.is_reversed t = 0 /\
    Tx.change_qty t <> 0 /\
    (Tx.action t = Action.checkout ->
     Tx.change_qty t < 0 /\ Tx.reversed_from t = None /\
     exists j, Tx.job_no t = Some j /\ j <> EmptyString /\ strip j = j) /\
    (Tx.action t = Action.receive ->
     0 < Tx.change_qty t /\ Tx.reversed_from t = None /\
     Tx.job_no t = None) /\
    (Tx.action t = Action.reverse ->
     exists k, Tx.reversed_from t = Some k).
Proof.
  intros R t Hin.
  pose proof (reachable_shapes R) as S. rewrite Forall_forall in S.
  pose proof (reachable_mirrors R) as M. rewrite Forall_forall in M.
  destruct (S t Hin) as [Hflag Hshape].
  split; [exact Hflag|]. split.
  - destruct (Tx.action t) eqn:Ea.
    + lia.
    + lia.
    + destruct Hshape as [k Hk].
      destruct (M t Hin k Hk) as [o [Ho [Hno [_ [Hch _]]]]].
      apply tx_of_some in Ho. destruct Ho as [Hoin _].
      destruct (S o Hoin) as [_ Hso].
      destruct (Tx.action o); [lia | lia | congruence].
  - destruct (Tx.action t); repeat split; intros; try discriminate;
      tauto.
Qed.

(** X8. In every reachable database a row with a link is a reverse row,
    and the row it points at is an earlier row of the log that is not
    itself a reversal, is about the same item, and has the negated change,
    the same price and the same job number. *)
Theorem reversal_rows_mirror_their_target s :
  reachable s ->
  forall t k, In t (transactions s) -> Tx.reversed_from t = Some k ->
    Tx.action t = Action.reverse /\
    exists o, In o (transactions s) /\ Tx.id o = k /\ k < Tx.id t /\
      Tx.action o <> Action.reverse /\
      Tx.item_id t = Tx.item_id o /\
      Tx.change_qty t = - Tx.change_qty o /\
      Tx.unit_price t = Tx.unit_price o /\
      Tx.job_no t = Tx.job_no o.
Proof.
  intros R t k Hin Hk.
  pose proof (reachable_consistent R) as C.
  pose proof (reversals_linked C) as L. rewrite Forall_forall in L.
  destruct (L t Hin k Hk) as [Hact [_ Hlt]].
  pose proof (reachable_mirrors R) as M. rewrite Forall_forall in M.
  destruct (M t Hin k Hk) as [o [Ho Hrest]].
  apply tx_of_some in Ho. destruct Ho as [Hoin Hoid].
  split; [exact Hact|]. exists o. repeat split; try tauto.
Qed.

(** *** One reversal per row *)

Lemma reversal_targets_app (l1 l2 : list (Tx.row F)) :
  reversal_targets (l1 ++ l2) = reversal_targets l1 ++ reversal_targets l2.
Proof. apply flat_map_app. Qed.

Lemma in_reversal_targets (l : list (Tx.row F)) k :
  In k (reversal_targets l) <->
  exists t, In t l /\ Tx.reversed_from t = Some k.
Proof.
  unfold reversal_targets. rewrite in_flat_map. split.
  - intros [t [Hin Hk]]. exists t. split; [exact Hin|].
    destruct (Tx.reversed_from t); [|contradiction].
    destruct Hk as [->|[]]. reflexivity.
  - intros [t [Hin Hk]]. exists t. split; [exact Hin|].
    rewrite Hk. now left.
Qed.

Lemma reachable_reversed_once s :
  reachable s -> NoDup (reversal_targets (transactions s)).
Proof.
  revert s. apply reachable_ind_served.
  - constructor.
  - intros; assumption.
  - intros s i q j it R IH Hi Hq Hj Hit Hle.
    rewrite ledger_write_transactions, reversal_targets_app. simpl.
    now rewrite app_nil_r.
  - intros s i q it R IH Hi Hq Hit.
    rewrite ledger_write_transactions, reversal_targets_app. simpl.
    now rewrite app_nil_r.
  - intros s k tx it R IH Hk Htx Hact Hrev Hit Hq.
    rewrite ledger_write_transactions, reversal_targets_app. simpl.
    apply NoDup_app; [exact IH | repeat constructor; simpl; tauto |].
    intros x Hx [<-|[]]. apply Hrev.
    apply (reversal_exists_iff _ (reachable_consistent R)).
    now apply in_reversal_targets.
Qed.

Lemma same_target_same_row (l : list (Tx.row F)) k t1 t2 :
  NoDup (reversal_targets l) ->
  In t1 l -> In t2 l ->
  Tx.reversed_from t1 = Some k -> Tx.reversed_from t2 = Some k ->
  t1 = t2.
Proof.
  induction l as [|x l IH]; simpl; intros Hnd H1 H2 E1 E2; [contradiction|].
  unfold reversal_targets in Hnd. simpl in Hnd.
  fold (reversal_targets l) in Hnd.
  assert (forall t, In t l -> Tx.reversed_from t = Some k ->
                    Tx.reversed_from x = Some k -> False) as Hclash.
  { intros t Ht Et Ex. rewrite Ex in Hnd. simpl in Hnd.
    inversion Hnd as [|? ? Hnot _]. apply Hnot.
    apply in_reversal_targets. eauto. }
  assert (NoDup (reversal_targets l)) as Hnd'.
  { destruct (Tx.reversed_from x); simpl in Hnd;
      [now inversion Hnd | exact Hnd]. }
  destruct H1 as [<-|H1], H2 as [<-|H2].
  - reflexivity.
  - exfalso. eapply Hclash; eassumption.
  - exfalso. eapply Hclash; eassumption.
  - now apply IH.
Qed.

(** X9. In every reachable database no row is reversed twice: two rows
    whose links point at the same transaction are one and the same row. *)
Theorem at_most_one_reversal_per_row s :
  reachable s ->
  forall t1 t2 k,
    In t1 (transactions s) -> In t2 (transactions s) ->
    Tx.reversed_from t1 = Some k -> Tx.reversed_from t2 = Some k ->
    t1 = t2.
Proof.
  intros R t1 t2 k H1 H2 E1 E2.
  eapply same_target_same_row; try eassumption.
  now apply reachable_reversed_once.
Qed.

(** *** Ids *)

Lemma counted_from_one_snoc (ids : list Z) (n : Z) :
  counted_from_one ids n -> counted_from_one (ids ++ [n + 1]) (n + 1).
Proof.
  intros [Hids Hn]. unfold counted_from_one.
  rewrite length_app. simpl.
  replace (List.length ids + 1)%nat with (S (List.length ids)) by lia.
  rewrite seq_S, map_app, <- Hids. simpl.
  split; [f_equal; f_equal; lia | lia].
Qed.

Lemma reachable_counted s :
  reachable s ->
  counted_from_one (map (@Stock.id F) (stock s)) (stock_seq s) /\
  counted_from_one (map (@Tx.id F) (transactions s)) (transactions_seq s).
Proof.
  revert s. apply reachable_ind_served.
  - split; split; reflexivity.
  - intros s n q m p su ro R [IH1 IH2] _ _ _ _ _. simpl.
    split; [|exact IH2]. rewrite map_app. simpl.
    now apply counted_from_one_snoc.
  - intros s i q j it R [IH1 IH2] _ _ _ _ _.
    rewrite ledger_write_stock, map_set_quantity_ids,
      ledger_write_stock_seq, ledger_write_transactions,
      ledger_write_transactions_seq, map_app.
    split; [exact IH1 | now apply counted_from_one_snoc].
  - intros s i q it R [IH1 IH2] _ _ _.
    rewrite ledger_write_stock, map_set_quantity_ids,
      ledger_write_stock_seq, ledger_write_transactions,
      ledger_write_transactions_seq, map_app.
    split; [exact IH1 | now apply counted_from_one_snoc].
  - intros s k tx it R [IH1 IH2] _ _ _ _ _ _.
    rewrite ledger_write_stock, map_set_quantity_ids,
      ledger_write_stock_seq, ledger_write_transactions,
      ledger_write_transactions_seq, map_app.
    split; [exact IH1 | now apply counted_from_one_snoc].
Qed.

Lemma counted_nth (A : Type) (key : A -> Z) (l : list A) (n : Z)
    (k : nat) (x : A) :
  counted_from_one (map key l) n ->
  nth_error l k = Some x -> key x = Z.of_nat k + 1.
Proof.
  intros [Hids _] Hk. rewrite length_map in Hids.
  assert (nth_error (map key l) k = Some (key x)) as E
    by (now apply map_nth_error).
  rewrite Hids in E.
  assert (k < List.length l)%nat as Hlt.
  { apply nth_error_Some. congruence. }
  rewrite (map_nth_error Z.of_nat k (seq 1 (List.length l))
             (d := (1 + k)%nat)) in E.
  - injection E as <-. lia.
  - rewrite nth_error_nth' with (d := 0%nat) by (now rewrite length_seq).
    now rewrite seq_nth.
Qed.

(** X10. On a database that started empty, ids count the rows from 1 in
    the order they were written: the item created k-th has id k, the
    transaction logged k-th has id k, and the next id of each table is its
    number of rows plus one. *)
Theorem ids_count_from_one s :
  reachable s ->
  (forall k it, nth_error (stock s) k = Some it ->
                Stock.id it = Z.of_nat k + 1) /\
  (forall k t, nth_error (transactions s) k = Some t ->
               Tx.id t = Z.of_nat k + 1) /\
  stock_seq s = Z.of_nat (List.length (stock s)) /\
  transactions_seq s = Z.of_nat (List.length (transactions s)).
Proof.
  intro R. destruct (reachable_counted R) as [Hs Ht].
  split; [|split; [|split]].
  - intros k it. now apply counted_nth with (n := stock_seq s).
  - intros k t. now apply counted_nth with (n := transactions_seq s).
  - destruct Hs as [_ ->]. now rewrite length_map.
  - destruct Ht as [_ ->]. now rewrite length_map.
Qed.

(** *** Stock rows *)

Lemma items_valid_ledger_write s i nq d j act p rf :
  0 <= nq -> Forall item_valid (stock s) ->
  Forall item_valid (stock (ledger_write s i nq d j act p rf)).
Proof.
  intros Hnq Hs. rewrite ledger_write_stock.
  apply Forall_map. eapply Forall_impl; [|exact Hs].
  intros x Hx. destruct (Stock.id x =? i); [|exact Hx].
  unfold item_valid in *. simpl. tauto.
Qed.

Lemma reachable_items_valid s :
  reachable s -> Forall item_valid (stock s).
Proof.
  revert s. apply reachable_ind_served.
  - constructor.
  - intros s n q m p su ro R IH Hn Hq Hm Hp Hro. simpl.
    apply Forall_app. split; [exact IH|].
    constructor; [|constructor]. unfold item_valid. simpl.
    repeat split; try assumption; apply strip_idem.
  - intros s i q j it R IH Hi Hq Hj Hit Hle.
    apply items_valid_ledger_write; [lia | exact IH].
  - intros s i q it R IH Hi Hq Hit.
    apply items_valid_ledger_write; [|exact IH].
    pose proof (nonneg_item _ (reachable_nonneg R) Hit). lia.
  - intros s k tx it R IH Hk Htx Hact Hrev Hit Hq.
    apply items_valid_ledger_write; [lia | exact IH].
Qed.

(** X11. In every reachable database every stock row has a name that is
    not empty and carries no surrounding white space, a supplier without
    surrounding white space, and a quantity, minimum level, price and
    reorder quantity that are not negative. *)
Theorem stock_rows_are_valid s :
  reachable s ->
  forall it, In it (stock s) ->
    Stock.name it <> EmptyString /\ strip (Stock.name it) = Stock.name it /\
    strip (Stock.supplier it) = Stock.supplier it /\
    0 <= Stock.quantity it /\ 0 <= Stock.min_level it /\
    fneg (Stock.unit_price it) = false /\ 0 <= Stock.reorder_qty it.
Proof.
  intros R it Hin. pose proof (reachable_items_valid R) as V.
  rewrite Forall_forall in V. exact (V it Hin).
Qed.

End Rows.

Lemma transaction_rows_are_well_formed_witness :
  Tx.change_qty
    (Tx.mk 3 1 5 (Some "J1"%string) Action.reverse (rands 10) (Some 1) 0)
  <> 0.
Proof.
  exact (proj1 (proj2 (transaction_rows_are_well_formed
                         (reachable_exec scenario_reversed)
                         (Tx.mk 3 1 5 (Some "J1"%string) Action.reverse
                                (rands 10) (Some 1) 0)
                         (or_intror (or_intror (or_introl eq_refl)))))).
Defined.

(* ------------------------------------------------------------------ *)
(** ** Net usage is what was checked out and not taken back *)

Section NetUsage.

Context {F : Type} `{Float F}.

Implicit Types (s : store F) (txs : list (Tx.row F)).

Lemma sum_where_app f txs1 txs2 :
  sum_where f (txs1 ++ txs2) = sum_where f txs1 + sum_where f txs2.
Proof. unfold sum_where. now rewrite filter_app, map_app, sumZ_app. Qed.

Lemma sum_where_one f (t : Tx.row F) :
  sum_where f [t] = if f t then Tx.change_qty t else 0.
Proof. unfold sum_where. simpl. destruct (f t); simpl; lia. Qed.

Lemma sum_where_ext f g txs :
  (forall t, In t txs -> f t = g t) -> sum_where f txs = sum_where g txs.
Proof.
  intro E. unfold sum_where. f_equal. f_equal. now apply filter_ext_in.
Qed.

(** Leaving out the row of id [k] takes its change off the sum. *)
Lemma sum_where_without f txs k :
  NoDup (map (@Tx.id F) txs) ->
  sum_where (fun t => f t && negb (k =? Tx.id t)) txs =
  sum_where f txs -
  match find (fun t => Tx.id t =? k) txs with
  | Some o => if f o then Tx.change_qty o else 0
  | None => 0
  end.
Proof.
  induction txs as [|x txs IH]; intro Hnd; [reflexivity|].
  inversion Hnd as [|? ? Hnot Hnd']; subst.
  change (x :: txs) with ([x] ++ txs).
  rewrite !sum_where_app, !sum_where_one. simpl.
  destruct (Z.eqb_spec (Tx.id x) k) as [E|E].
  - subst k. rewrite Z.eqb_refl, andb_false_r.
    rewrite (sum_where_ext (fun t => f t && negb (Tx.id x =? Tx.id t)) f).
    + lia.
    + intros t Ht. destruct (Z.eqb_spec (Tx.id x) (Tx.id t)) as [E'|_].
      * exfalso. apply Hnot. rewrite E'. now apply in_map.
      * now rewrite andb_true_r.
  - destruct (Z.eqb_spec k (Tx.id x)); [congruence|].
    rewrite andb_true_r, IH by assumption. lia.
Qed.

Lemma is_reversed_in_iff txs k :
  is_reversed_in txs k = true <-> In k (reversal_targets txs).
Proof.
  unfold is_reversed_in. rewrite existsb_exists. split.
  - intros [x [Hx E]]. apply Z.eqb_eq in E. now subst.
  - intro Hk. exists k. split; [exact Hk | apply Z.eqb_refl].
Qed.

(** In a consistent log the id a ledger write will use is not reversed. *)
Lemma next_id_not_reversed s :
  consistent s ->
  is_reversed_in (transactions s) (transactions_seq s + 1) = false.
Proof.
  intro C. destruct (is_reversed_in _ _) eqn:E; [|reflexivity].
  apply is_reversed_in_iff, in_reversal_targets in E.
  destruct E as [t [Hin Hk]].
  pose proof (reversals_linked C) as L. rewrite Forall_forall in L.
  destruct (L t Hin _ Hk) as [_ Hlt].
  pose proof (tx_ids_issued C) as I. rewrite Forall_forall in I.
  specialize (I t Hin). lia.
Qed.

Lemma standing_unlinked txs (r : Tx.row F) j i p :
  Tx.reversed_from r = None ->
  forall t, standing_checkout (txs ++ [r]) j i p t =
            standing_checkout txs j i p t.
Proof.
  intros Hr t. unfold standing_checkout, is_reversed_in.
  rewrite reversal_targets_app. simpl. rewrite Hr. simpl.
  now rewrite app_nil_r.
Qed.

Lemma standing_linked txs (r : Tx.row F) k j i p :
  Tx.reversed_from r = Some k ->
  forall t, standing_checkout (txs ++ [r]) j i p t =
            standing_checkout txs j i p t && negb (k =? Tx.id t).
Proof.
  intros Hr t. unfold standing_checkout, is_reversed_in.
  rewrite reversal_targets_app. simpl. rewrite Hr. simpl.
  rewrite existsb_app. simpl. rewrite orb_false_r, negb_orb.
  now rewrite andb_assoc.
Qed.

(** Per job, item and price: the changes of the selected rows add up to
    the changes of the checkouts that stand. *)
Lemma reachable_net_usage s :
  reachable s ->
  forall j i p,
    sum_where (in_usage_group j i p) (transactions s) =
    sum_where (standing_checkout (transactions s) j i p) (transactions s).
Proof.
  intro R. pattern s.
  eapply reachable_ind_served; [ | | | | | exact R]; clear s R; cbv beta.
  - reflexivity.
  - intros; auto.
  - (* checkout *)
    intros s i q j it R IH Hi Hq Hj Hit Hle j0 i0 p0.
    pose proof (reachable_consistent R) as C.
    rewrite ledger_write_transactions.
    set (r := Tx.mk _ _ _ _ _ _ _ _).
    rewrite (@sum_where_ext
               (standing_checkout (transactions s ++ [r]) j0 i0 p0)
               (standing_checkout (transactions s) j0 i0 p0)
               (transactions s ++ [r]))
      by (intros t _; now apply standing_unlinked).
    rewrite !sum_where_app, !sum_where_one, IH. f_equal.
    unfold standing_checkout. simpl.
    rewrite (next_id_not_reversed C). simpl.
    now rewrite !andb_true_r.
  - (* receive *)
    intros s i q it R IH Hi Hq Hit j0 i0 p0.
    rewrite ledger_write_transactions.
    set (r := Tx.mk _ _ _ _ _ _ _ _).
    rewrite (@sum_where_ext
               (standing_checkout (transactions s ++ [r]) j0 i0 p0)
               (standing_checkout (transactions s) j0 i0 p0)
               (transactions s ++ [r]))
      by (intros t _; now apply standing_unlinked).
    rewrite !sum_where_app, !sum_where_one, IH. f_equal.
  - (* reverse *)
    intros s k tx it R IH Hk Htx Hact Hrev Hit Hq j0 i0 p0.
    pose proof (reachable_consistent R) as C.
    rewrite ledger_write_transactions.
    set (r := Tx.mk _ _ _ _ _ _ _ _).
    rewrite (@sum_where_ext
               (standing_checkout (transactions s ++ [r]) j0 i0 p0)
               (fun t => standing_checkout (transactions s) j0 i0 p0 t
                         && negb (k =? Tx.id t))
               (transactions s ++ [r]))
      by (intros t _; now apply standing_linked).
    rewrite !sum_where_app, !sum_where_one.
    rewrite (sum_where_without _ _ k (tx_ids_unique C)).
    fold (tx_of s k). rewrite Htx, <- IH.
    (* the new row is no checkout; the reversed row stood until now *)
    assert (standing_checkout (transactions s) j0 i0 p0 r = false) as Hr.
    { unfold standing_checkout. subst r. simpl.
      now rewrite andb_false_r. }
    rewrite Hr. simpl.
    assert (is_reversed_in (transactions s) (Tx.id tx) = false) as Hfree.
    { destruct (is_reversed_in _ _) eqn:E; [|reflexivity].
      exfalso. apply Hrev.
      apply (reversal_exists_iff _ C).
      apply is_reversed_in_iff, in_reversal_targets in E.
      destruct (tx_of_some _ _ Htx) as [_ <-]. exact E. }
    unfold standing_checkout. rewrite Hfree. simpl. rewrite andb_true_r.
    unfold in_usage_group, usage_where. subst r. simpl.
    destruct (tx_of_some _ _ Htx) as [Hin _].
    pose proof (reachable_shapes R) as S. rewrite Forall_forall in S.
    destruct (S tx Hin) as [_ Hshape].
    destruct (Tx.action tx) eqn:Ea; simpl.
    + rewrite !andb_true_r.
      destruct (match Tx.job_no tx with
                | Some j1 => (j1 =? j0)%string
                | None => false
                end && (Tx.item_id tx =? i0)
                && (if F_eq_dec (Tx.unit_price tx) p0 then true else false));
        lia.
    + destruct Hshape as [_ [_ ->]]. simpl. lia.
    + congruence.
Qed.

(** X12. In every reachable database and for every job, the [net_qty] of
    each line of the usage report is the total quantity of the job's
    checkouts of that item at that price that no reversal has taken back;
    in particular no line shows a negative usage. *)
Theorem net_usage_is_standing_checkouts s job_no :
  reachable s ->
  forall u, In u (fst (_job_usage s job_no)) ->
    u_net_qty u =
      sumZ (map (fun t => - Tx.change_qty t)
                (filter (standing_checkout (transactions s) job_no
                           (u_item_id u) (u_unit_price u))
                        (transactions s))) /\
    0 <= u_net_qty u.
Proof.
  intros R u Hu.
  destruct (usage_lines _ _ (reachable_consistent R) Hu)
    as [_ [_ [Hnet _]]].
  pose proof (reachable_net_usage R job_no (u_item_id u) (u_unit_price u))
    as E. unfold sum_where in E. rewrite E in Hnet. clear E.
  pose proof (reachable_shapes R) as S. rewrite Forall_forall in S.
  assert (forall l : list (Tx.row F),
            (forall t, In t l -> In t (transactions s)) ->
            - sumZ (map (@Tx.change_qty F)
                      (filter (standing_checkout (transactions s) job_no
                                 (u_item_id u) (u_unit_price u)) l)) =
            sumZ (map (fun t => - Tx.change_qty t)
                      (filter (standing_checkout (transactions s) job_no
                                 (u_item_id u) (u_unit_price u)) l)) /\
            0 <= sumZ (map (fun t => - Tx.change_qty t)
                      (filter (standing_checkout (transactions s) job_no
                                 (u_item_id u) (u_unit_price u)) l))) as Hl.
  { induction l as [|t l IH]; intro Hsub; [simpl; lia|].
    destruct IH as [IH1 IH2]; [intros; apply Hsub; now right|].
    simpl.
    destruct (standing_checkout _ _ _ _ t) eqn:Est; [|now split].
    unfold standing_checkout in Est.
    apply andb_true_iff in Est. destruct Est as [Est _].
    apply andb_true_iff in Est. destruct Est as [_ Est].
    apply action_eqb_eq in Est.
    destruct (S t (Hsub t (or_introl eq_refl))) as [_ Hshape].
    rewrite Est in Hshape. destruct Hshape as [Hneg _].
    simpl. unfold sumZ in *. simpl. lia. }
  destruct (Hl (transactions s) (fun t Ht => Ht)) as [H1 H2].
  rewrite Hnet, H1. split; [reflexivity | exact H2].
Qed.

End NetUsage.

(* ------------------------------------------------------------------ *)
(** ** What leaves a job's report alone *)

Section ReportFrame.

Context {F : Type} `{Float F}.

Implicit Types (s : store F).

Lemma flat_map_ext_in {A B} (f g : A -> list B) (l : list A) :
  (forall a, In a l -> f a = g a) -> flat_map f l = flat_map g l.
Proof.
  induction l as [|x l IH]; simpl; intro E; [reflexivity|].
  rewrite (E x (or_introl eq_refl)), IH; [reflexivity|].
  intros a Ha. apply E. now right.
Qed.

(** The join reads only the id and the name of a stock row. *)
Lemma join_rows_set_quantity (l : list (Stock.row F)) i nq k (up : F)
    (cq : Z) :
  map (fun it => mkUsageRow (Stock.id it) (Stock.name it) up cq)
      (filter (fun it => Stock.id it =? k)
              (map (fun x => if Stock.id x =? i
                             then Stock.set_quantity nq x else x) l)) =
  map (fun it : Stock.row F =>
         mkUsageRow (Stock.id it) (Stock.name it) up cq)
      (filter (fun it => Stock.id it =? k) l).
Proof.
  induction l as [|x l IH]; simpl; [reflexivity|].
  destruct (Stock.id x =? i) eqn:Ei; simpl;
    destruct (Stock.id x =? k); simpl; now rewrite IH.
Qed.

Lemma usage_join_ledger_write s i nq d j act p rf job_no :
  usage_where job_no (Tx.mk (transactions_seq s + 1) i d j act p rf 0)
  = false ->
  usage_join (ledger_write s i nq d j act p rf) job_no =
  usage_join s job_no.
Proof.
  intro Hw. unfold usage_join.
  rewrite ledger_write_transactions, ledger_write_stock, flat_map_app.
  simpl. rewrite Hw. simpl. rewrite app_nil_r.
  apply flat_map_ext. intro t.
  destruct (usage_where job_no t); [|reflexivity].
  apply join_rows_set_quantity.
Qed.

Lemma usage_join_insert_stock s new job_no :
  consistent s -> Stock.id new = stock_seq s + 1 ->
  usage_join (mkStore (stock s ++ [new]) (stock_seq s + 1)
                      (transactions s) (transactions_seq s)) job_no =
  usage_join s job_no.
Proof.
  intros C Hid. unfold usage_join. simpl.
  apply flat_map_ext_in. intros t Ht.
  destruct (usage_where job_no t); [|reflexivity].
  rewrite filter_app. simpl.
  destruct (Z.eqb_spec (Stock.id new) (Tx.item_id t)) as [E|_].
  - exfalso.
    pose proof (tx_items_exist C) as X. rewrite Forall_forall in X.
    destruct (X t Ht) as [it [Hit Hid']].
    pose proof (item_ids_issued C) as I. rewrite Forall_forall in I.
    specialize (I it Hit). lia.
  - now rewrite app_nil_r.
Qed.

Lemma job_usage_of_join s s' job_no :
  usage_join s' job_no = usage_join s job_no ->
  _job_usage s' job_no = _job_usage s job_no.
Proof.
  intro E. unfold _job_usage, usage_select. now rewrite E.
Qed.

(** X13. In a consistent database the report of a job is left exactly as
    it was, lines and total, by every creation of an item, by every
    receipt, by every checkout for another job, and by every reversal of a
    transaction that does not carry the job's number; whether these
    requests are served or not. *)
Theorem job_report_frame s job_no :
  consistent s ->
  (forall a n q m p su ro,
     _job_usage (snd (add_item a n q m p su ro s)) job_no =
     _job_usage s job_no) /\
  (forall a i q,
     _job_usage (snd (receive a i q s)) job_no = _job_usage s job_no) /\
  (forall a i q j,
     strip (str_or_empty j) <> job_no ->
     _job_usage (snd (checkout a i q j s)) job_no = _job_usage s job_no) /\
  (forall a t,
     (forall tx, tx_of s (get0 t) = Some tx ->
                 Tx.job_no tx <> Some job_no) ->
     _job_usage (snd (reverse_transaction a t s)) job_no =
     _job_usage s job_no).
Proof.
  intro C. split; [|split; [|split]].
  - intros a n q m p su ro.
    destruct (add_item_spec a n q m p su ro s); simpl; try reflexivity.
    apply job_usage_of_join. now apply usage_join_insert_stock.
  - intros a i q.
    destruct (receive_spec a i q s); simpl; try reflexivity.
    apply job_usage_of_join. now apply usage_join_ledger_write.
  - intros a i q j Hj.
    destruct (checkout_spec a i q j s); simpl; try reflexivity.
    apply job_usage_of_join. apply usage_join_ledger_write.
    unfold usage_where. simpl.
    destruct (String.eqb_spec (strip (str_or_empty j)) job_no);
      [contradiction | reflexivity].
  - intros a t Hjob.
    destruct (reverse_transaction_spec a t s) as
      [| | | | | | |tx it Ha Ht Htx Hact Hrev Hit Hq];
      simpl; try reflexivity.
    apply job_usage_of_join. apply usage_join_ledger_write.
    unfold usage_where. simpl.
    destruct (Tx.job_no tx) as [j1|] eqn:Ej; [|reflexivity].
    destruct (String.eqb_spec j1 job_no) as [->|_]; [|reflexivity].
    exfalso. apply (Hjob tx Htx). exact Ej.
Qed.

End ReportFrame.

(* ------------------------------------------------------------------ *)
(** ** From a checkout to the job's report *)

Section CheckoutToReport.

Context {F : Type} `{Float F}.

Implicit Types (s : store F).

(** X14. The report strips the job number it is asked for, so white space
    around it makes no difference; and in a consistent database, after a
    served checkout the report of its job, asked for with or without
    surrounding white space, is answered and holds a line for the item at
    the price the checkout answered with. *)
Theorem checkout_shows_on_report s i q j resp s' :
  consistent s ->
  checkout true i q j s = (Ok resp, s') ->
  (forall a asked (s0 : store F),
     job_usage a asked s0 = job_usage a (strip asked) s0) /\
  (forall asked,
     strip asked = strip (str_or_empty j) ->
     exists report u,
       fst (job_usage true asked s') = Ok report /\
       ju_job_no report = strip (str_or_empty j) /\
       In u (ju_items report) /\
       u_item_id u = get0 i /\
       u_unit_price u = co_unit_price_at_time resp).
Proof.
  intros C Hco. split.
  - intros a asked s0. unfold job_usage. now rewrite strip_idem.
  - revert Hco.
    destruct (checkout_spec true i q j s) as
      [| | | | |it _ Hi Hq Hj Hit Hle]; try discriminate.
    intros [= <- <-] asked Hasked. simpl.
    set (s1 := ledger_write s (get0 i) (Stock.quantity it - get0 q)
                 (- get0 q) (Some (strip (str_or_empty j)))
                 Action.checkout (Stock.unit_price it) None).
    assert (consistent s1) as C1.
    { apply consistent_ledger_write; [assumption | | discriminate].
      eapply item_of_exists; eassumption. }
    set (row := Tx.mk (transactions_seq s + 1) (get0 i) (- get0 q)
                  (Some (strip (str_or_empty j))) Action.checkout
                  (Stock.unit_price it) None 0).
    assert (In row (transactions s1)) as Hrow.
    { subst s1. rewrite ledger_write_transactions.
      apply in_or_app. right. now left. }
    assert (selected (strip (str_or_empty j)) row) as Hsel.
    { split; [reflexivity | now left]. }
    destruct (usage_covers C1 Hrow Hsel) as [u [Hu [Huid Hup]]].
    rewrite job_usage_cases, Hasked. simpl.
    destruct (nonempty (strip (str_or_empty j))) eqn:En.
    2:{ apply nonempty_false in En. contradiction. }
    destruct (fst (_job_usage s1 (strip (str_or_empty j))))
      as [|u0 items] eqn:Ei; [contradiction|].
    eexists. exists u. split; [reflexivity|].
    split; [reflexivity|]. split; [exact Hu|].
    split; [exact Huid | exact Hup].
Qed.

End CheckoutToReport.

Lemma checkout_shows_on_report_witness :
  exists report u,
    fst (job_usage true " J1 "%string (exec scenario_first)) = Ok report /\
    ju_job_no report = "J1"%string /\
    In u (ju_items report) /\
    u_item_id u = 1 /\
    u_unit_price u = rands 10.
Proof.
  exact (proj2 (checkout_shows_on_report
                  (Some 1) (Some 5) (Some "J1"%string)
                  (reachable_consistent (reachable_exec [scenario_item]))
                  eq_refl)
           " J1 "%string eq_refl).
Defined.

Lemma reversal_rows_mirror_their_target_witness :
  Action.reverse = Action.reverse /\
  exists o, In o (transactions (exec scenario_reversed)) /\
    Tx.id o = 1 /\ 1 < 3 /\
    Tx.action o <> Action.reverse /\
    1 = Tx.item_id o /\
    5 = - Tx.change_qty o /\
    rands 10 = Tx.unit_price o /\
    Some "J1"%string = Tx.job_no o.
Proof.
  refine (reversal_rows_mirror_their_target
            (reachable_exec scenario_reversed)
            (Tx.mk 3 1 5 (Some "J1"%string) Action.reverse (rands 10)
                   (Some 1) 0)
            _ eq_refl).
  vm_compute. right. right. left. reflexivity.
Defined.

Lemma at_most_one_reversal_per_row_witness :
  Tx.mk 3 1 5 (Some "J1"%string) Action.reverse (rands 10) (Some 1) 0 =
  Tx.mk 3 1 5 (Some "J1"%string) Action.reverse (rands 10) (Some 1) 0.
Proof.
  refine (at_most_one_reversal_per_row
            (reachable_exec scenario_reversed)
            (Tx.mk 3 1 5 (Some "J1"%string) Action.reverse (rands 10)
                   (Some 1) 0)
            (Tx.mk 3 1 5 (Some "J1"%string) Action.reverse (rands 10)
                   (Some 1) 0)
            (k := 1) _ _ eq_refl eq_refl);
    vm_compute; right; right; left; reflexivity.
Defined.

Lemma ids_count_from_one_witness :
  transactions_seq (exec scenario_reversed) =
  Z.of_nat (List.length (transactions (exec scenario_reversed))).
Proof.
  exact (proj2 (proj2 (proj2
           (ids_count_from_one (reachable_exec scenario_reversed))))).
Defined.

Lemma stock_rows_are_valid_witness :
  "A"%string <> EmptyString /\ strip "A"%string = "A"%string /\
  strip EmptyString = EmptyString /\
  0 <= 97 /\ 0 <= 0 /\ fneg (rands 10) = false /\ 0 <= 0.
Proof.
  refine (stock_rows_are_valid (reachable_exec scenario_reversed)
            (Stock.mk 1 "A"%string 97 0 (rands 10) EmptyString 0) _).
  vm_compute. left. reflexivity.
Defined.

Lemma net_usage_is_standing_checkouts_witness :
  0 <= u_net_qty (mkUsageItem 1 "A"%string 3 (rands 10) (rands 30)).
Proof.
  refine (proj2 (net_usage_is_standing_checkouts "J1"%string
                   (reachable_exec scenario_reversed)
                   (mkUsageItem 1 "A"%string 3 (rands 10) (rands 30)) _)).
  vm_compute. left. reflexivity.
Defined.

Lemma job_report_frame_witness :
  _job_usage
    (snd (checkout true (Some 1) (Some 2) (Some "J2"%string)
            (exec scenario)))
    "J1"%string =
  _job_usage (exec scenario) "J1"%string.
Proof.
  exact (proj1 (proj2 (proj2
           (job_report_frame "J1"%string
              (reachable_consistent (reachable_exec scenario)))))
           true (Some 1) (Some 2) (Some "J2"%string) ltac:(discriminate)).
Defined.
